(** * pathrouter: the router facade of [router.go], embedded in Rocq

    The development follows the Go package [pathrouter]:

    - [Param], [Params] and [ByName]                      (router.go, 65-85)
    - [CleanPath]                                         (path.go)
    - the radix tree, seen through its four entry points  (tree.go)
    - [RouterConfig], [Router], [AddHandler], [LookupPath],
      [recoverPanic] and [Serve]                          (router.go, 87-281)

    Go strings are byte strings; they are embedded as [string], whose
    characters are the 256 [ascii] values. *)

From Stdlib Require Import Bool Arith ZArith List String Ascii Lia.
Import ListNotations.

Local Open Scope string_scope.
Local Open Scope list_scope.

(* ================================================================== *)
(** ** Parameters *)

(** [type Param struct { Key string; Value string }] *)
Record Param : Type := mkParam { Key : string; Value : string }.

(** [type Params []Param] *)
Definition Params : Type := list Param.

(** [func (ps Params) ByName(name string) string]: the [range] loop returns
    at the first element whose key is [name]; the empty string is returned
    once the slice is exhausted. *)
Fixpoint ByName (ps : Params) (name : string) : string :=
  match ps with
  | [] => ""
  | p :: rest => if String.eqb (Key p) name then Value p else ByName rest name
  end.

(* ================================================================== *)
(** ** Byte-string helpers *)

Definition slash : ascii := "/"%char.

(** [s[len(s)-1] == '/'], false on the empty string. *)
Fixpoint hasTrailingSlash (s : string) : bool :=
  match s with
  | EmptyString => false
  | String c rest =>
      match rest with
      | EmptyString => Ascii.eqb c slash
      | String _ _ => hasTrailingSlash rest
      end
  end.

(** [s[:len(s)-1]] (the empty string stays empty). *)
Fixpoint dropLast (s : string) : string :=
  match s with
  | EmptyString => EmptyString
  | String c rest =>
      match rest with
      | EmptyString => EmptyString
      | String _ _ => String c (dropLast rest)
      end
  end.

(** The pieces of [s] between its slashes: ["/a//b/"] gives
    [[""; "a"; ""; "b"; ""]].  Never the empty list. *)
Fixpoint segments (s : string) : list string :=
  match s with
  | EmptyString => [EmptyString]
  | String c rest =>
      if Ascii.eqb c slash then EmptyString :: segments rest
      else match segments rest with
           | seg :: more => String c seg :: more
           | [] => [String c EmptyString]
           end
  end.

(** Every segment written back behind a slash. *)
Fixpoint joinSegments (segs : list string) : string :=
  match segs with
  | [] => EmptyString
  | seg :: more => String slash (seg ++ joinSegments more)
  end.

(* ================================================================== *)
(** ** The path cleaner *)

(** One segment of the input against the output written so far ([out]
    holds the segments already written, the latest first):
    an empty segment is a repeated slash and a ["."] segment is skipped;
    [".."] drops the previous segment of the output, and at the root there
    is nothing to drop; any other segment is written. *)
Definition cleanStep (out : list string) (seg : string) : list string :=
  if String.eqb seg "" then out
  else if String.eqb seg "." then out
  else if String.eqb seg ".." then tl out
  else seg :: out.

(** Modelled from the spec: [CleanPath] of path.go, which is not among the
    sources at hand; section 4.1 of the specification gives its rules.
    The empty path becomes ["/"]; the result always starts with a slash;
    runs of slashes collapse; ["."] segments are skipped; [".."] drops the
    previous segment and never climbs above the root; a trailing slash is
    kept exactly when the input ended in one and the result is not the
    root. *)
Definition CleanPath (p : string) : string :=
  match rev (fold_left cleanStep (segments p) []) with
  | [] => "/"
  | out => joinSegments out ++ (if hasTrailingSlash p then "/" else "")
  end.

(** No byte of [s] is a slash. *)
Fixpoint noSlash (s : string) : bool :=
  match s with
  | EmptyString => true
  | String c rest => negb (Ascii.eqb c slash) && noSlash rest
  end.

(** A segment that [cleanStep] writes to the output. *)
Definition isReal (seg : string) : bool :=
  negb (String.eqb seg "") && negb (String.eqb seg ".")
  && negb (String.eqb seg "..") && noSlash seg.

(* ================================================================== *)
(** ** Handlers, panics and observable events *)

(** A Go call either returns or panics; [AddHandler] has no result of its
    own, so its embedding returns the router it leaves behind. *)
Inductive result (E A : Type) : Type :=
| Ok (a : A)
| Panic (e : E).
Arguments Ok {E A} a.
Arguments Panic {E A} e.

(** The registration failures of section 7 of the specification; the tree
    raises them by panicking. *)
Inductive regError : Type :=
| DuplicateRegistration
| WildcardConflict
| CatchallNotTerminal
| MalformedPlaceholder.

Section Signatures.

(** [context.Context], the writer type [W] of [Router[W]], the values of
    Go's [error] interface and the values a [panic] can carry. *)
Variables Ctx W Err V : Type.

(** What a call of a [Handle] does: it returns [(bool, error)], with
    [None] for the nil error, or it panics.  [recover()] hands back the
    panic value; [None] stands for the nil interface value, which
    [recover()] also returns for [panic(nil)] before Go 1.21. *)
Inductive outcome : Type :=
| Returns (handled : bool) (err : option Err)
| Panics (rcv : option V).

(** [type Handle[W any] func(ctx, reqPath string, p Params, rw W) (bool, error)] *)
Definition Handle : Type := Ctx -> string -> Params -> W -> outcome.

(** A [PanicHandler] returns nothing, or panics itself. *)
Inductive trapOutcome : Type :=
| TrapReturns
| TrapPanics (rcv : option V).

(** [func(ctx context.Context, reqPath string, rw W, panicErr interface{})] *)
Definition PanicHandlerFunc : Type := Ctx -> string -> W -> V -> trapOutcome.

(** What a call of the router does besides computing its result, in the
    order in which it happens. *)
Inductive event : Type :=
| PoolGet                       (* r.paramsPool.Get(), through getParams *)
| PoolPut                       (* r.paramsPool.Put(ps), through putParams *)
| CallHandle (ctx : Ctx) (reqPath : string) (p : Params) (wr : W) (res : outcome)
| CallNotFound (ctx : Ctx) (reqPath : string) (p : Params) (wr : W) (res : outcome)
| CallPanicHandler (ctx : Ctx) (reqPath : string) (wr : W) (rcv : V) (res : trapOutcome)
| RedirectTSR (reqPath : string)       (* r.Serve re-entered, slash toggled *)
| FixedPathLookup (cleaned : string)   (* root.findCaseInsensitivePath called *)
| RedirectFixed (reqPath : string).    (* r.Serve re-entered, fixed path *)

(** [type RouterConfig[W any] struct] *)
Record RouterConfig : Type := mkConfig {
  RedirectTrailingSlash : bool;
  RedirectFixedPath : bool;
  NotFound : option Handle;
  PanicHandler : option PanicHandlerFunc
}.

(** [func DefaultConfig[W any]() RouterConfig[W]] *)
Definition DefaultConfig : RouterConfig :=
  {| RedirectTrailingSlash := true;
     RedirectFixedPath := true;
     NotFound := None;
     PanicHandler := None |}.

End Signatures.

Arguments Returns {Err V} handled err.
Arguments Panics {Err V} rcv.
Arguments TrapReturns {V}.
Arguments TrapPanics {V} rcv.
Arguments PoolGet {Ctx W Err V}.
Arguments PoolPut {Ctx W Err V}.
Arguments CallHandle {Ctx W Err V} ctx reqPath p wr res.
Arguments CallNotFound {Ctx W Err V} ctx reqPath p wr res.
Arguments CallPanicHandler {Ctx W Err V} ctx reqPath wr rcv res.
Arguments RedirectTSR {Ctx W Err V} reqPath.
Arguments FixedPathLookup {Ctx W Err V} cleaned.
Arguments RedirectFixed {Ctx W Err V} reqPath.
Arguments mkConfig {Ctx W Err V}.
Arguments RedirectTrailingSlash {Ctx W Err V} r.
Arguments RedirectFixedPath {Ctx W Err V} r.
Arguments NotFound {Ctx W Err V} r.
Arguments PanicHandler {Ctx W Err V} r.
Arguments DefaultConfig {Ctx W Err V}.

(* ================================================================== *)
(** ** The tree, as the router uses it *)

(** [uint16(n)] *)
Definition uint16 (n : Z) : Z := Z.modulo n 65536.

(** tree.go is not among the sources at hand.  router.go reaches it through
    [new(node[W])], [addRoute], [getValue], [findCaseInsensitivePath] and
    [countParams] only, so the router is embedded over any implementation
    of these.

    [getValue root path r.getParams] is given by its three results.  The
    tree calls the [getParams] callback when it binds its first parameter
    and not otherwise, so the [*Params] it returns is non-nil ([Some])
    exactly when one buffer was taken from the pool during the walk.
    [addRoute] panics on the registrations section 7 of the specification
    lists. *)
Class Tree (H : Type) : Type := {
  node : Type;
  newNode : node;
  addRoute : node -> string -> H -> result regError node;
  getValue : node -> string -> option H * option Params * bool;
  findCaseInsensitivePath : node -> string -> bool -> string * bool;
  countParams : string -> Z
}.

(* ================================================================== *)
(** ** The router *)

Section RouterDefs.

Context {Ctx W Err V : Type}.
Context {T : Tree (Handle Ctx W Err V)}.

Local Notation "'handle_t'" := (Handle Ctx W Err V).
Local Notation "'trace'" := (list (event Ctx W Err V)).

(** [type Router[W any] struct].  Of [paramsPool] the router reads and
    writes the [New] field ([paramsPoolNew] tells whether it is set); the
    buffers the pool holds are seen through the [PoolGet] and [PoolPut]
    events.  [maxParams] is a [uint16]. *)
Record Router : Type := mkRouter {
  conf : RouterConfig Ctx W Err V;
  tree : option node;
  paramsPoolNew : bool;
  maxParams : Z
}.

(** [func NewWithConfig[W any](conf RouterConfig[W]) *Router[W]] *)
Definition NewWithConfig (c : RouterConfig Ctx W Err V) : Router :=
  {| conf := c; tree := None; paramsPoolNew := false; maxParams := 0 |}.

(** [func New[W any]() *Router[W]] *)
Definition New : Router := NewWithConfig DefaultConfig.

(** [r.getParams], as the tree calls it: one [Get] on the pool when the
    walk bound a parameter ([ps] is the [*Params] that [getValue] returned).
    [AddHandler] sets the pool's [New] as soon as a pattern with a
    placeholder is registered, so the pool has a buffer to give whenever
    the tree has a parameter to bind. *)
Definition getParams (ps : option Params) : trace :=
  match ps with
  | Some _ => [PoolGet]
  | None => []
  end.

(** [func (r *Router[W]) putParams(ps *Params)]: [Put] unless [ps] is nil. *)
Definition putParams (ps : option Params) : trace :=
  match ps with
  | Some _ => [PoolPut]
  | None => []
  end.

(** The path [AddHandler] registers: ["/"] for the empty path, a slash put
    in front of a path that does not start with one. *)
Definition registeredPath (path : string) : string :=
  match path with
  | EmptyString => "/"
  | String c _ => if Ascii.eqb c slash then path else "/" ++ path
  end.

(** [func (r *Router[W]) AddHandler(path string, handle Handle[W])].
    A panic of [addRoute] leaves [AddHandler] at once. *)
Definition AddHandler (r : Router) (path : string) (handle : option handle_t)
  : result regError Router :=
  match handle with
  | None => Ok r
  | Some h =>
      let path := registeredPath path in
      let varsCount := 0%Z in
      let root := match tree r with
                  | Some root => root
                  | None => newNode
                  end in
      match addRoute root path h with
      | Panic e => Panic e
      | Ok root' =>
          let paramsCount := countParams path in
          let maxParams' :=
            if (uint16 (paramsCount + varsCount) >? maxParams r)%Z
            then uint16 (paramsCount + varsCount)
            else maxParams r in
          let new' :=
            if negb (paramsPoolNew r) && (maxParams' >? 0)%Z
            then true
            else paramsPoolNew r in
          Ok {| conf := conf r;
                tree := Some root';
                paramsPoolNew := new';
                maxParams := maxParams' |}
      end
  end.

(** [func (r *Router[W]) recoverPanic(ctx, reqPath string, wr W)], run as a
    deferred call on the way out of [Serve] with outcome [o].  [recover()]
    stops a panic in flight; the handler is called on a non-nil recovered
    value, and the inner deferred [recover()] stops whatever the handler
    itself panics with.  A function left through a recovered panic returns
    the zero values of its results. *)
Definition recoverPanic (r : Router) (ctx : Ctx) (reqPath : string) (wr : W)
  (o : outcome Err V) : outcome Err V * trace :=
  match o with
  | Returns _ _ => (o, [])
  | Panics rcv =>
      (Returns false None,
       match rcv, PanicHandler (conf r) with
       | Some v, Some ph => [CallPanicHandler ctx reqPath wr v (ph ctx reqPath wr v)]
       | _, _ => []
       end)
  end.

(** [func (r *Router[W]) LookupPath(path string) (Handle[W], Params, bool)],
    with the pool events of the call.  The nil slice and the nil handle are
    [[]] and [None]. *)
Definition LookupPath (r : Router) (path : string)
  : (option handle_t * Params * bool) * trace :=
  match tree r with
  | Some root =>
      let '(handle, ps, tsr) := getValue root path in
      match handle with
      | None => ((None, [], tsr), getParams ps ++ putParams ps)
      | Some h =>
          match ps with
          | None => ((Some h, [], tsr), getParams ps)
          | Some p => ((Some h, p, tsr), getParams ps)
          end
      end
  | None => ((None, [], false), [])
  end.

(** [x != nil] *)
Definition notNil {A : Type} (x : option A) : bool :=
  match x with
  | Some _ => true
  | None => false
  end.

(** The request path [Serve] re-enters with on a trailing-slash redirect. *)
Definition toggleSlash (reqPath : string) : string :=
  if (1 <? String.length reqPath)%nat && hasTrailingSlash reqPath
  then dropLast reqPath
  else reqPath ++ "/".

(** [var params Params; if ps != nil { params = *ps }] *)
Definition paramsOf (ps : option Params) : Params :=
  match ps with
  | Some p => p
  | None => []
  end.

(** [if reqPath == "" { reqPath = "/" }] *)
Definition requestPath (reqPath : string) : string :=
  if String.eqb reqPath "" then "/" else reqPath.

(** The tail of [Serve] under its comment [// not found]. *)
Definition serveNotFound (r : Router) (ctx : Ctx) (reqPath : string) (wr : W)
  : outcome Err V * trace :=
  match NotFound (conf r) with
  | None => (Returns false None, [])
  | Some nf =>
      let res := nf ctx reqPath [] wr in
      (res, [CallNotFound ctx reqPath [] wr res])
  end.

(** Events that happen before a computation are put in front of its own. *)
Definition after (pre : trace) (m : option (outcome Err V * trace))
  : option (outcome Err V * trace) :=
  match m with
  | Some (o, t) => Some (o, pre ++ t)
  | None => None
  end.

(** The deferred calls of one [Serve] frame, run on the way out in the
    reverse order of their [defer] statements: [putParams] first ([put]
    is empty when it was not deferred), then [recoverPanic] (deferred only
    when a panic handler is configured, with the request path that [Serve]
    received: the arguments of a deferred call are evaluated at the
    [defer] statement). *)
Definition runDeferred (r : Router) (ctx : Ctx) (reqPath : string) (wr : W)
  (put : trace) (m : option (outcome Err V * trace))
  : option (outcome Err V * trace) :=
  match m with
  | None => None
  | Some (o, t) =>
      match PanicHandler (conf r) with
      | None => Some (o, t ++ put)
      | Some _ =>
          let '(o', t') := recoverPanic r ctx reqPath wr o in
          Some (o', t ++ put ++ t')
      end
  end.

(** [func (r *Router[W]) Serve(ctx, reqPath string, wr W) (bool, error)].
    [fuel] bounds the number of nested re-entries of [Serve]; [None] is
    returned when it is used up.  The result is the outcome of the call
    with the events of the call, nested calls included.  [leave] is the
    way out of this frame through its deferred calls. *)
Fixpoint Serve (fuel : nat) (r : Router) (ctx : Ctx) (reqPath : string) (wr : W)
  {struct fuel} : option (outcome Err V * trace) :=
  let reenter p :=
    match fuel with
    | O => None
    | S fuel' => Serve fuel' r ctx p wr
    end in
  let leave := runDeferred r ctx reqPath wr in
  let reqPath := requestPath reqPath in
  match tree r with
  | Some root =>
      let '(handle, ps, tsr) := getValue root reqPath in
      match handle with
      | Some h =>
          let params := paramsOf ps in
          let res := h ctx reqPath params wr in
          let call := getParams ps ++ [CallHandle ctx reqPath params wr res] in
          match res with
          | Returns found handlerErr =>
              if found || notNil handlerErr
              then leave (putParams ps) (Some (res, call))
              else leave (putParams ps)
                     (after call (Some (serveNotFound r ctx reqPath wr)))
          | Panics _ =>
              leave (putParams ps) (Some (res, call))
          end
      | None =>
          if negb (String.eqb reqPath "/") && negb (String.eqb reqPath "") then
            if tsr && RedirectTrailingSlash (conf r) then
              let reqPath := toggleSlash reqPath in
              leave []
                (after (getParams ps ++ [RedirectTSR reqPath]) (reenter reqPath))
            else if RedirectFixedPath (conf r) then
              let cleaned := CleanPath reqPath in
              let '(fixedPath, fixedFound) :=
                findCaseInsensitivePath root cleaned
                  (RedirectTrailingSlash (conf r)) in
              if fixedFound then
                leave []
                  (after (getParams ps ++ [FixedPathLookup cleaned; RedirectFixed fixedPath])
                     (reenter fixedPath))
              else
                leave []
                  (after (getParams ps ++ [FixedPathLookup cleaned])
                     (Some (serveNotFound r ctx reqPath wr)))
            else
              leave []
                (after (getParams ps) (Some (serveNotFound r ctx reqPath wr)))
          else
            leave []
              (after (getParams ps) (Some (serveNotFound r ctx reqPath wr)))
      end
  | None =>
      leave [] (Some (serveNotFound r ctx reqPath wr))
  end.

(** *** Reading a trace *)

Definition isGet (ev : event Ctx W Err V) : bool :=
  match ev with
  | PoolGet => true
  | _ => false
  end.

Definition isPut (ev : event Ctx W Err V) : bool :=
  match ev with
  | PoolPut => true
  | _ => false
  end.

Definition isTrap (ev : event Ctx W Err V) : bool :=
  match ev with
  | CallPanicHandler _ _ _ _ _ => true
  | _ => false
  end.

(** The number of buffers borrowed from, and returned to, the pool. *)
Definition gets (t : trace) : nat := List.length (filter isGet t).
Definition puts (t : trace) : nat := List.length (filter isPut t).

(** The number of calls of the panic handler. *)
Definition traps (t : trace) : nat := List.length (filter isTrap t).

(** At most one buffer is borrowed and every borrowed buffer is returned. *)
Definition poolBalanced (t : trace) : Prop :=
  (gets t <= 1)%nat /\ puts t = gets t.

(** The panic value of a call of a route handler or of the not-found
    handler that panicked. *)
Definition panicOf (ev : event Ctx W Err V) : option (option V) :=
  match ev with
  | CallHandle _ _ _ _ (Panics rcv) => Some rcv
  | CallNotFound _ _ _ _ (Panics rcv) => Some rcv
  | _ => None
  end.

(** A stretch of a trace in which no handler panicked and the panic
    handler was not called. *)
Definition quiet (t : trace) : Prop :=
  Forall (fun ev => isTrap ev = false /\ panicOf ev = None) t.

(** Nothing was recovered in [t]: the panic handler was not called, and a
    handler that panicked left [o] as the outcome. *)
Definition unrecovered (o : outcome Err V) (t : trace) : Prop :=
  Forall (fun ev => isTrap ev = false
                    /\ forall rcv, panicOf ev = Some rcv -> o = Panics rcv) t.

End RouterDefs.

(* ================================================================== *)
(** ** A tree to run the router on *)

Module RouteTable.

(** One segment of a registered pattern (section 3 of the specification):
    literal bytes, [:name] or [*name]. *)
Inductive token : Type :=
| Static (s : string)
| Named (name : string)
| CatchAll (name : string).

Definition isSigil (c : ascii) : bool :=
  Ascii.eqb c ":"%char || Ascii.eqb c "*"%char.

Fixpoint hasSigil (s : string) : bool :=
  match s with
  | EmptyString => false
  | String c rest => isSigil c || hasSigil rest
  end.

(** A placeholder name is not empty and holds neither [:] nor [*]; it
    holds no [/] since it lies within one segment. *)
Definition validName (name : string) : bool :=
  negb (String.eqb name "") && negb (hasSigil name).

(** A sigil is accepted at the start of a segment only. *)
Definition tokenOf (seg : string) : result regError token :=
  match seg with
  | EmptyString => Ok (Static "")
  | String c name =>
      if Ascii.eqb c ":"%char then
        if validName name then Ok (Named name) else Panic MalformedPlaceholder
      else if Ascii.eqb c "*"%char then
        if validName name then Ok (CatchAll name) else Panic MalformedPlaceholder
      else if hasSigil seg then Panic MalformedPlaceholder
      else Ok (Static seg)
  end.

(** The catch-all is the final element of its pattern. *)
Fixpoint tokensOf (segs : list string) : result regError (list token) :=
  match segs with
  | [] => Ok []
  | seg :: more =>
      match tokenOf seg with
      | Panic e => Panic e
      | Ok (CatchAll name) =>
          match more with
          | [] => Ok [CatchAll name]
          | _ :: _ => Panic CatchallNotTerminal
          end
      | Ok t =>
          match tokensOf more with
          | Panic e => Panic e
          | Ok ts => Ok (t :: ts)
          end
      end
  end.

(** The segments behind the leading slash; [None] without a leading slash. *)
Definition rooted (path : string) : option (list string) :=
  match segments path with
  | EmptyString :: segs => Some segs
  | _ => None
  end.

Definition parsePattern (pattern : string) : result regError (list token) :=
  match rooted pattern with
  | Some segs => tokensOf segs
  | None => Panic MalformedPlaceholder
  end.

Definition token_eqb (a b : token) : bool :=
  match a, b with
  | Static s, Static s' => String.eqb s s'
  | Named n, Named n' => String.eqb n n'
  | CatchAll n, CatchAll n' => String.eqb n n'
  | _, _ => false
  end.

(** Two patterns against each other: the same pattern twice is a duplicate
    registration; where they part, a placeholder on either side is a
    conflict, except that a named parameter (which binds no empty segment)
    may stand beside the trailing slash. *)
Fixpoint clash (a b : list token) : option regError :=
  match a, b with
  | [], [] => Some DuplicateRegistration
  | ta :: a', tb :: b' =>
      if token_eqb ta tb then clash a' b'
      else match ta, tb with
           | Static _, Static _ => None
           | Static EmptyString, Named _ => None
           | Named _, Static EmptyString => None
           | _, _ => Some WildcardConflict
           end
  | _, _ => None
  end.

(** ASCII case folding. *)
Definition lower (c : ascii) : ascii :=
  let n := nat_of_ascii c in
  if (65 <=? n)%nat && (n <=? 90)%nat then ascii_of_nat (n + 32) else c.

Fixpoint foldCase (s : string) : string :=
  match s with
  | EmptyString => EmptyString
  | String c rest => String (lower c) (foldCase rest)
  end.

Definition sameFolded (a b : string) : bool :=
  String.eqb (foldCase a) (foldCase b).

(** A pattern against the segments of a path, with the parameters bound
    from left to right and the path as the pattern spells it: a static
    segment must be [same] as the segment of the path, a named parameter
    takes one segment that is not empty, a catch-all takes what is left of
    the path from its slash on. *)
Fixpoint matchSegments (same : string -> string -> bool)
  (ts : list token) (segs : list string) : option (Params * list string) :=
  match ts, segs with
  | [], [] => Some ([], [])
  | Static s :: ts', seg :: segs' =>
      if same s seg then
        match matchSegments same ts' segs' with
        | Some (ps, out) => Some (ps, s :: out)
        | None => None
        end
      else None
  | Named name :: ts', seg :: segs' =>
      if String.eqb seg "" then None
      else match matchSegments same ts' segs' with
           | Some (ps, out) => Some (mkParam name seg :: ps, seg :: out)
           | None => None
           end
  | CatchAll name :: _, _ :: _ => Some ([mkParam name (joinSegments segs)], segs)
  | _, _ => None
  end.

(** The parameters the walk has bound when it stops, on a match or on the
    first segment that does not fit (section 4.3: a parameter is recorded
    as soon as its segment is consumed). *)
Fixpoint boundParams (ts : list token) (segs : list string) : Params :=
  match ts, segs with
  | Static s :: ts', seg :: segs' =>
      if String.eqb s seg then boundParams ts' segs' else []
  | Named name :: ts', seg :: segs' =>
      if String.eqb seg "" then []
      else mkParam name seg :: boundParams ts' segs'
  | CatchAll name :: _, _ :: _ => [mkParam name (joinSegments segs)]
  | _, _ => []
  end.

Section Table.

Variable H : Type.

Record route : Type := mkRoute {
  pattern : list token;
  handler : H
}.

Definition table : Type := list route.

Fixpoint findRoute (same : string -> string -> bool) (routes : table)
  (segs : list string) : option (H * Params * list string) :=
  match routes with
  | [] => None
  | rt :: more =>
      match matchSegments same (pattern rt) segs with
      | Some (ps, out) => Some (handler rt, ps, out)
      | None => findRoute same more segs
      end
  end.

Definition hit (routes : table) (path : string) : bool :=
  match rooted path with
  | Some segs => notNil (findRoute String.eqb routes segs)
  | None => false
  end.

(** The walk that went furthest: the longest list of parameters that a
    registered pattern bound on the path. *)
Fixpoint deepestBound (routes : table) (segs : list string) : Params :=
  match routes with
  | [] => []
  | rt :: more =>
      let here := boundParams (pattern rt) segs in
      let there := deepestBound more segs in
      if (List.length there <=? List.length here)%nat then here else there
  end.

(** [*Params] as [getValue] returns it: nil as long as the walk bound
    nothing. *)
Definition buffer (ps : Params) : option Params :=
  match ps with
  | [] => None
  | _ :: _ => Some ps
  end.

(** Modelled from the spec: [node.getValue] of tree.go, which is not among
    the sources at hand.  A registered pattern that matches gives its
    handler and its parameters in the order of the placeholders (section
    8, P1), with no buffer taken when there are none (section 4.3,
    allocation).  A miss reports [tsr] exactly when the path with its
    trailing slash added or removed has a handler (section 4.3, summary of
    the TSR rules), and hands back the buffer that the walk took for the
    parameters it had bound when it failed: [LookupPath] passes it to
    [putParams]. *)
Definition tableGetValue (routes : table) (path : string)
  : option H * option Params * bool :=
  match match rooted path with
        | Some segs => findRoute String.eqb routes segs
        | None => None
        end with
  | Some (h, ps, _) => (Some h, buffer ps, false)
  | None =>
      (None,
       match rooted path with
       | Some segs => buffer (deepestBound routes segs)
       | None => None
       end,
       if hasTrailingSlash path then hit routes (dropLast path)
       else hit routes (path ++ "/"))
  end.

Definition findFolded (routes : table) (path : string) : option string :=
  match rooted path with
  | Some segs =>
      match findRoute sameFolded routes segs with
      | Some (_, _, out) => Some (joinSegments out)
      | None => None
      end
  | None => None
  end.

(** Modelled from the spec: [node.findCaseInsensitivePath] of tree.go,
    which is not among the sources at hand (section 4.4).  Static segments
    are compared under case folding and written as registered, parameter
    values are copied from the input; with [fixTrailingSlash] the path is
    tried with its trailing slash added or removed before giving up. *)
Definition tableFindCaseInsensitivePath (routes : table) (path : string)
  (fixTrailingSlash : bool) : string * bool :=
  match findFolded routes path with
  | Some fixed => (fixed, true)
  | None =>
      if fixTrailingSlash then
        match findFolded routes
                (if hasTrailingSlash path then dropLast path else path ++ "/") with
        | Some fixed => (fixed, true)
        | None => ("", false)
        end
      else ("", false)
  end.

Fixpoint firstClash (routes : table) (ts : list token) : option regError :=
  match routes with
  | [] => None
  | rt :: more =>
      match clash (pattern rt) ts with
      | Some e => Some e
      | None => firstClash more ts
      end
  end.

(** Modelled from the spec: [node.addRoute] of tree.go, which is not among
    the sources at hand.  The pattern is checked for the errors of section
    7 and then registered. *)
Definition tableAddRoute (routes : table) (path : string) (h : H)
  : result regError table :=
  match parsePattern path with
  | Panic e => Panic e
  | Ok ts =>
      match firstClash routes ts with
      | Some e => Panic e
      | None => Ok (routes ++ [mkRoute ts h])
      end
  end.

Fixpoint countSigils (s : string) : Z :=
  match s with
  | EmptyString => 0
  | String c rest => ((if isSigil c then 1 else 0) + countSigils rest)%Z
  end.

(** Modelled from the spec: [countParams] of tree.go, which is not among
    the sources at hand: the number of placeholders of a pattern (section
    3, [maxParams]), as a [uint16]. *)
Definition tableCountParams (path : string) : Z := uint16 (countSigils path).

#[export] Instance tableTree : Tree H := {|
  node := table;
  newNode := [];
  addRoute := tableAddRoute;
  getValue := tableGetValue;
  findCaseInsensitivePath := tableFindCaseInsensitivePath;
  countParams := tableCountParams
|}.

End Table.

Arguments mkRoute {H} pattern handler.
Arguments pattern {H} r.
Arguments handler {H} r.

End RouteTable.

(* ================================================================== *)
(** ** Reading a trace, continued *)

Section RouterReadings.

Context {Ctx W Err V : Type}.
Context {T : Tree (Handle Ctx W Err V)}.

Local Notation "'trace'" := (list (event Ctx W Err V)).

Definition isHandle (ev : event Ctx W Err V) : bool :=
  match ev with
  | CallHandle _ _ _ _ _ => true
  | _ => false
  end.

Definition isNotFound (ev : event Ctx W Err V) : bool :=
  match ev with
  | CallNotFound _ _ _ _ _ => true
  | _ => false
  end.

Definition isRedirect (ev : event Ctx W Err V) : bool :=
  match ev with
  | RedirectTSR _ => true
  | RedirectFixed _ => true
  | _ => false
  end.

Definition isFixedPathLookup (ev : event Ctx W Err V) : bool :=
  match ev with
  | FixedPathLookup _ => true
  | _ => false
  end.

(** The number of calls of a route handler, of the not-found handler, of
    re-entries of [Serve] and of case-insensitive lookups. *)
Definition handles (t : trace) : nat := List.length (filter isHandle t).
Definition notFounds (t : trace) : nat := List.length (filter isNotFound t).
Definition redirects (t : trace) : nat := List.length (filter isRedirect t).
Definition fixedPathLookups (t : trace) : nat :=
  List.length (filter isFixedPathLookup t).

(** What [Serve ctx reqPath wr] passes on: every handler is called with
    the context and the writer of the request; a route handler and the
    not-found handler are called with a request path that is not empty,
    the not-found handler with nil parameters. *)
Definition forwarded (ctx : Ctx) (wr : W) (ev : event Ctx W Err V) : Prop :=
  match ev with
  | CallHandle c p _ w _ => c = ctx /\ w = wr /\ p <> ""
  | CallNotFound c p ps w _ => c = ctx /\ w = wr /\ p <> "" /\ ps = []
  | CallPanicHandler c _ w _ _ => c = ctx /\ w = wr
  | _ => True
  end.

(** The routers a program can hold: [NewWithConfig c], and what a call of
    [AddHandler] that did not panic leaves. *)
Inductive built (c : RouterConfig Ctx W Err V) : Router -> Prop :=
| built_new : built c (NewWithConfig c)
| built_add (r r' : Router) (path : string) (handle : option (Handle Ctx W Err V)) :
    built c r -> AddHandler r path handle = Ok r' -> built c r'.

End RouterReadings.

(* ================================================================== *)
(** ** The routers of router_test.go *)

Module Example.

Import RouteTable.

(** The tests route with [struct{}] as the writer; errors and panic values
    are strings here. *)
Definition handle : Type := Handle unit unit string string.
Definition router : Type := @Router unit unit string string (tableTree handle).

(** A handler that serves every request. *)
Definition served : handle := fun _ _ _ _ => Returns true None.

(** The handler of [TestRouter] on parameters it does not expect. *)
Definition failing : handle :=
  fun _ _ _ _ => Returns false (Some "wrong wildcard values").

(** [buildHandler(nil)]: not handled, no error. *)
Definition passing : handle := fun _ _ _ _ => Returns false None.

(** The handler of [TestRouterPanicHandler]. *)
Definition panicking : handle := fun _ _ _ _ => Panics (Some "oops!").

(** The not-found handler of [TestRouterNotFoundHandler]. *)
Definition notFound : handle := fun _ _ _ _ => Returns true None.

(** A not-found handler that panics. *)
Definition notFoundPanics : handle := fun _ _ _ _ => Panics (Some "no route").

(** A panic handler that panics in turn. *)
Definition trap : PanicHandlerFunc unit unit string :=
  fun _ _ _ rcv => TrapPanics (Some rcv).

(** [/user/:name] registered on a router with configuration [c]. *)
Definition userRouter (c : RouterConfig unit unit string string) (h : handle)
  : router :=
  {| conf := c;
     tree := Some [mkRoute [Static "user"; Named "name"] h];
     paramsPoolNew := true;
     maxParams := 1 |}.

(** [/path], [/dir/] and [/] registered as in [TestRouterNotFound]. *)
Definition pathRouter : router :=
  {| conf := DefaultConfig;
     tree := Some [mkRoute [Static "path"] served;
                   mkRoute [Static "dir"; Static ""] served;
                   mkRoute [Static ""] served];
     paramsPoolNew := false;
     maxParams := 0 |}.

(** The parameters of [TestParams]. *)
Definition testParams : Params :=
  [mkParam "param1" "value1"; mkParam "param2" "value2";
   mkParam "param3" "value3"].

End Example.

(* ================================================================== *)
(** * Facts *)

Local Open Scope string_scope.

(** ** Params *)

Lemma ByName_skips (pre : Params) (rest : Params) (name : string) :
  (forall q, In q pre -> Key q <> name) ->
  ByName (pre ++ rest)%list name = ByName rest name.
Proof.
  induction pre as [|q pre IH]; intros Hpre; simpl.
  - reflexivity.
  - destruct (String.eqb_spec (Key q) name) as [Heq|_].
    + exfalso. apply (Hpre q); [now left | exact Heq].
    + apply IH. intros q' Hq'. apply Hpre. now right.
Qed.

(** ** The path cleaner *)

Lemma string_app_empty_r (s : string) : s ++ "" = s.
Proof.
  induction s as [|c s IH]; simpl; [reflexivity | now rewrite IH].
Qed.

Lemma string_app_assoc (a b c : string) : (a ++ b) ++ c = a ++ (b ++ c).
Proof.
  induction a as [|x a IH]; simpl; [reflexivity | now rewrite IH].
Qed.

Lemma segments_not_nil (s : string) : segments s <> [].
Proof.
  induction s as [|c s IH]; simpl.
  - discriminate.
  - destruct (Ascii.eqb c slash); [discriminate|].
    destruct (segments s); [contradiction | discriminate].
Qed.

Lemma segments_noSlash (s : string) :
  Forall (fun seg => noSlash seg = true) (segments s).
Proof.
  induction s as [|c s IH]; simpl.
  - repeat constructor.
  - destruct (Ascii.eqb c slash) eqn:Hc.
    + constructor; [reflexivity | exact IH].
    + destruct (segments s) as [|seg more].
      * repeat constructor. simpl. now rewrite Hc.
      * inversion IH as [|? ? Hseg Hmore]; subst.
        constructor; [|exact Hmore]. simpl. now rewrite Hc.
Qed.

Lemma segments_single (a : string) :
  noSlash a = true -> segments a = [a].
Proof.
  induction a as [|c a IH]; simpl; intros Ha.
  - reflexivity.
  - apply andb_prop in Ha as [Hc Ha].
    apply negb_true_iff in Hc. rewrite Hc, (IH Ha). reflexivity.
Qed.

Lemma segments_app_slash (a rest : string) :
  noSlash a = true ->
  segments (a ++ String slash rest) = a :: segments rest.
Proof.
  induction a as [|c a IH]; simpl; intros Ha.
  - reflexivity.
  - apply andb_prop in Ha as [Hc Ha].
    apply negb_true_iff in Hc. rewrite Hc, (IH Ha). reflexivity.
Qed.

(** The segments of what the cleaner writes are the segments it wrote. *)
Lemma segments_join (s : string) (more : list string) (trailing : bool) :
  Forall (fun seg => noSlash seg = true) (s :: more) ->
  segments (s ++ joinSegments more ++ (if trailing then "/" else ""))
  = (s :: more ++ (if trailing then [""] else []))%list.
Proof.
  revert s. induction more as [|s' more IH]; intros s Hall; simpl.
  - inversion Hall as [|? ? Hs _]; subst.
    destruct trailing.
    + now rewrite segments_app_slash.
    + rewrite string_app_empty_r. now apply segments_single.
  - inversion Hall as [|? ? Hs Hmore]; subst.
    rewrite segments_app_slash by exact Hs.
    rewrite string_app_assoc. now rewrite (IH s' Hmore).
Qed.

Lemma isReal_noSlash (seg : string) : isReal seg = true -> noSlash seg = true.
Proof.
  unfold isReal. intros H. now apply andb_prop in H as [_ H].
Qed.

Lemma cleanStep_real (out : list string) (seg : string) :
  isReal seg = true -> cleanStep out seg = seg :: out.
Proof.
  unfold isReal, cleanStep. intros H.
  apply andb_prop in H as [H _].
  apply andb_prop in H as [H H3].
  apply andb_prop in H as [H1 H2].
  apply negb_true_iff in H1, H2, H3.
  now rewrite H1, H2, H3.
Qed.

Lemma cleanStep_keeps_real (out : list string) (seg : string) :
  noSlash seg = true ->
  Forall (fun s => isReal s = true) out ->
  Forall (fun s => isReal s = true) (cleanStep out seg).
Proof.
  intros Hseg Hout. unfold cleanStep.
  destruct (String.eqb seg "") eqn:H1; [exact Hout|].
  destruct (String.eqb seg ".") eqn:H2; [exact Hout|].
  destruct (String.eqb seg "..") eqn:H3.
  - destruct out as [|x out]; simpl; [constructor|].
    now inversion Hout.
  - constructor; [|exact Hout].
    unfold isReal. now rewrite H1, H2, H3, Hseg.
Qed.

Lemma fold_cleanStep_keeps_real (segs out : list string) :
  Forall (fun s => noSlash s = true) segs ->
  Forall (fun s => isReal s = true) out ->
  Forall (fun s => isReal s = true) (fold_left cleanStep segs out).
Proof.
  revert out. induction segs as [|seg segs IH]; intros out Hsegs Hout; simpl.
  - exact Hout.
  - inversion Hsegs as [|? ? Hseg Hrest]; subst.
    apply IH; [exact Hrest|]. now apply cleanStep_keeps_real.
Qed.

Lemma fold_cleanStep_real (segs out : list string) :
  Forall (fun s => isReal s = true) segs ->
  fold_left cleanStep segs out = (rev segs ++ out)%list.
Proof.
  revert out. induction segs as [|seg segs IH]; intros out Hsegs; simpl.
  - reflexivity.
  - inversion Hsegs as [|? ? Hseg Hrest]; subst.
    rewrite cleanStep_real by exact Hseg.
    rewrite (IH _ Hrest), <- app_assoc. reflexivity.
Qed.

Lemma fold_cleanStep_written (out : list string) (trailing : bool) :
  Forall (fun s => isReal s = true) out ->
  fold_left cleanStep ("" :: out ++ (if trailing then [""] else []))%list []
  = rev out.
Proof.
  intros Hreal.
  change (fold_left cleanStep ("" :: out ++ (if trailing then [""] else []))%list [])
    with (fold_left cleanStep (out ++ (if trailing then [""] else []))%list []).
  rewrite fold_left_app, (fold_cleanStep_real out [] Hreal), app_nil_r.
  destruct trailing; reflexivity.
Qed.

Lemma hasTrailingSlash_app (a b : string) :
  b <> "" -> hasTrailingSlash (a ++ b) = hasTrailingSlash b.
Proof.
  intros Hb. induction a as [|c a IH]; simpl.
  - reflexivity.
  - destruct (a ++ b) eqn:Hab.
    + destruct a; simpl in Hab; [contradiction | discriminate].
    + exact IH.
Qed.

Lemma hasTrailingSlash_noSlash (s : string) :
  noSlash s = true -> hasTrailingSlash s = false.
Proof.
  induction s as [|c s IH]; simpl; intros Hs.
  - reflexivity.
  - apply andb_prop in Hs as [Hc Hs]. apply negb_true_iff in Hc.
    destruct s; [exact Hc | now apply IH].
Qed.

Lemma hasTrailingSlash_join (s : string) (more : list string) :
  Forall (fun seg => isReal seg = true) (s :: more) ->
  hasTrailingSlash (s ++ joinSegments more) = false.
Proof.
  revert s. induction more as [|s' more IH]; intros s Hall; simpl.
  - inversion Hall as [|? ? Hs _]; subst.
    rewrite string_app_empty_r.
    apply hasTrailingSlash_noSlash. now apply isReal_noSlash.
  - inversion Hall as [|? ? Hs Hmore]; subst.
    rewrite hasTrailingSlash_app by discriminate.
    specialize (IH s' Hmore).
    inversion Hmore as [|? ? Hs' _]; subst.
    destruct s' as [|c s']; [discriminate Hs'|].
    exact IH.
Qed.

(** What the cleaner wrote is left as it is by the cleaner. *)
Lemma CleanPath_written (out : list string) (trailing : bool) :
  out <> [] ->
  Forall (fun seg => isReal seg = true) out ->
  CleanPath (joinSegments out ++ (if trailing then "/" else ""))
  = joinSegments out ++ (if trailing then "/" else "").
Proof.
  intros Hne Hreal.
  destruct out as [|s more]; [contradiction|].
  assert (Hns : Forall (fun seg => noSlash seg = true) (s :: more)).
  { eapply Forall_impl; [|exact Hreal]. intros a. apply isReal_noSlash. }
  unfold CleanPath. simpl joinSegments.
  change (String slash (s ++ joinSegments more) ++ (if trailing then "/" else ""))
    with (String slash ((s ++ joinSegments more) ++ (if trailing then "/" else ""))).
  rewrite string_app_assoc.
  assert (Hseg : segments (String slash (s ++ joinSegments more ++ (if trailing then "/" else "")))
                 = ("" :: (s :: more) ++ (if trailing then [""] else []))%list).
  { simpl segments. now rewrite (segments_join s more trailing Hns). }
  rewrite Hseg, (fold_cleanStep_written (s :: more) trailing Hreal), rev_involutive.
  assert (Hts : hasTrailingSlash
                  (String slash (s ++ joinSegments more ++ (if trailing then "/" else "")))
                = trailing).
  { rewrite <- string_app_assoc.
    change (String slash ((s ++ joinSegments more) ++ (if trailing then "/" else "")))
      with (("/" ++ s ++ joinSegments more) ++ (if trailing then "/" else "")).
    destruct trailing.
    - now rewrite hasTrailingSlash_app by discriminate.
    - rewrite string_app_empty_r.
      change ("/" ++ s ++ joinSegments more) with ("/" ++ (s ++ joinSegments more)).
      inversion Hreal as [|? ? Hs _]; subst.
      rewrite hasTrailingSlash_app.
      + apply (hasTrailingSlash_join s more Hreal).
      + destruct s; [discriminate Hs | discriminate]. }
  rewrite Hts. simpl. now rewrite string_app_assoc.
Qed.

(** C9: the path cleaner is idempotent: cleaning a cleaned path changes
    nothing, [CleanPath (CleanPath x) = CleanPath x] for every [x]. *)
Theorem CleanPath_idempotent (x : string) :
  CleanPath (CleanPath x) = CleanPath x.
Proof.
  assert (Hreal : Forall (fun seg => isReal seg = true)
                    (rev (fold_left cleanStep (segments x) []))).
  { apply Forall_rev. apply fold_cleanStep_keeps_real.
    - apply segments_noSlash.
    - constructor. }
  unfold CleanPath at 2 3.
  destruct (rev (fold_left cleanStep (segments x) [])) as [|s more] eqn:Hout.
  - reflexivity.
  - apply CleanPath_written; [discriminate | exact Hreal].
Qed.

(** ** Lookup by name *)

(** C6: for every [ps] and [name], [ByName ps name] is the [Value] of the
    first [Param] of [ps], in order, whose [Key] is [name], and the empty
    string when no [Param] of [ps] has that [Key]. *)
Theorem ByName_first_match (ps : Params) (name : string) :
  (forall (pre : Params) (p : Param) (post : Params),
      ps = (pre ++ p :: post)%list ->
      (forall q, In q pre -> Key q <> name) ->
      Key p = name ->
      ByName ps name = Value p)
  /\ ((forall q, In q ps -> Key q <> name) -> ByName ps name = "").
Proof.
  split.
  - intros pre p post -> Hpre Hp.
    rewrite (ByName_skips pre (p :: post) name Hpre). simpl.
    now rewrite (proj2 (String.eqb_eq (Key p) name) Hp).
  - intros Hnone.
    rewrite <- (app_nil_r ps), (ByName_skips ps [] name Hnone).
    reflexivity.
Qed.

Lemma ByName_first_match_witness :
  ByName Example.testParams "param2" = "value2"
  /\ ByName Example.testParams "noKey" = "".
Proof.
  split.
  - apply (proj1 (ByName_first_match Example.testParams "param2")
             [mkParam "param1" "value1"] (mkParam "param2" "value2")
             [mkParam "param3" "value3"]).
    + reflexivity.
    + intros q [<-|[]]. simpl. discriminate.
    + reflexivity.
  - apply (proj2 (ByName_first_match Example.testParams "noKey")).
    intros q [<-|[<-|[<-|[]]]]; simpl; discriminate.
Defined.

(* ================================================================== *)
(** ** The router *)

Section RouterFacts.

Context {Ctx W Err V : Type}.
Context {T : Tree (Handle Ctx W Err V)}.

Local Notation "'router_t'" := (@Router Ctx W Err V T).
Local Notation "'trace'" := (list (event Ctx W Err V)).

(** *** Traces *)

Lemma gets_app (a b : trace) : gets (a ++ b)%list = (gets a + gets b)%nat.
Proof.
  unfold gets. now rewrite filter_app, length_app.
Qed.

Lemma puts_app (a b : trace) : puts (a ++ b)%list = (puts a + puts b)%nat.
Proof.
  unfold puts. now rewrite filter_app, length_app.
Qed.

Lemma traps_app (a b : trace) : traps (a ++ b)%list = (traps a + traps b)%nat.
Proof.
  unfold traps. now rewrite filter_app, length_app.
Qed.

(** *** The deferred calls *)

Lemma runDeferred_returns (r : router_t) (ctx : Ctx) (reqPath : string) (wr : W)
  (put t : trace) (handled : bool) (err : option Err) :
  runDeferred r ctx reqPath wr put (Some (Returns handled err, t))
  = Some (Returns handled err, (t ++ put)%list).
Proof.
  unfold runDeferred. destruct (PanicHandler (conf r)); [|reflexivity].
  cbn. now rewrite app_nil_r.
Qed.

Lemma runDeferred_untrapped (r : router_t) (ctx : Ctx) (reqPath : string) (wr : W)
  (put t : trace) (o : outcome Err V) :
  PanicHandler (conf r) = None ->
  runDeferred r ctx reqPath wr put (Some (o, t)) = Some (o, (t ++ put)%list).
Proof.
  intros Hnone. unfold runDeferred. now rewrite Hnone.
Qed.

Lemma runDeferred_trapped (r : router_t) (ctx : Ctx) (reqPath : string) (wr : W)
  (put t : trace) (rcv : option V) (ph : PanicHandlerFunc Ctx W V) :
  PanicHandler (conf r) = Some ph ->
  runDeferred r ctx reqPath wr put (Some (Panics rcv, t))
  = Some (Returns false None,
          (t ++ put ++ match rcv with
                       | Some v => [CallPanicHandler ctx reqPath wr v (ph ctx reqPath wr v)]
                       | None => []
                       end)%list).
Proof.
  intros Hsome. unfold runDeferred, recoverPanic. rewrite Hsome.
  destruct rcv; reflexivity.
Qed.

(** A frame that defers [recoverPanic] is never left by a panic. *)
Lemma runDeferred_never_panics (r : router_t) (ctx : Ctx) (reqPath : string)
  (wr : W) (put : trace) (m : option (outcome Err V * trace))
  (ph : PanicHandlerFunc Ctx W V) (o : outcome Err V) (t : trace) :
  PanicHandler (conf r) = Some ph ->
  runDeferred r ctx reqPath wr put m = Some (o, t) ->
  exists handled err, o = Returns handled err.
Proof.
  intros Hsome. destruct m as [[o0 t0]|]; [|discriminate].
  destruct o0 as [handled err|rcv].
  - rewrite runDeferred_returns. intros [= <- _]. eauto.
  - rewrite (runDeferred_trapped _ _ _ _ _ _ _ ph Hsome). intros [= <- _]. eauto.
Qed.

(** *** One step of [Serve] *)

Lemma Serve_unfold (fuel : nat) (r : router_t) (ctx : Ctx) (reqPath : string) (wr : W) :
  Serve fuel r ctx reqPath wr =
  let reenter p :=
    match fuel with
    | O => None
    | S fuel' => Serve fuel' r ctx p wr
    end in
  let reqPath0 := reqPath in
  let reqPath := requestPath reqPath in
  match tree r with
  | Some root =>
      let '(handle, ps, tsr) := getValue root reqPath in
      match handle with
      | Some h =>
          let params := paramsOf ps in
          let res := h ctx reqPath params wr in
          let call := (getParams ps ++ [CallHandle ctx reqPath params wr res])%list in
          match res with
          | Returns found handlerErr =>
              if found || notNil handlerErr
              then runDeferred r ctx reqPath0 wr (putParams ps) (Some (res, call))
              else runDeferred r ctx reqPath0 wr (putParams ps)
                     (after call (Some (serveNotFound r ctx reqPath wr)))
          | Panics _ =>
              runDeferred r ctx reqPath0 wr (putParams ps) (Some (res, call))
          end
      | None =>
          if negb (String.eqb reqPath "/") && negb (String.eqb reqPath "") then
            if tsr && RedirectTrailingSlash (conf r) then
              let reqPath := toggleSlash reqPath in
              runDeferred r ctx reqPath0 wr []
                (after (getParams ps ++ [RedirectTSR reqPath])%list (reenter reqPath))
            else if RedirectFixedPath (conf r) then
              let cleaned := CleanPath reqPath in
              let '(fixedPath, fixedFound) :=
                findCaseInsensitivePath root cleaned
                  (RedirectTrailingSlash (conf r)) in
              if fixedFound then
                runDeferred r ctx reqPath0 wr []
                  (after (getParams ps ++ [FixedPathLookup cleaned; RedirectFixed fixedPath])%list
                     (reenter fixedPath))
              else
                runDeferred r ctx reqPath0 wr []
                  (after (getParams ps ++ [FixedPathLookup cleaned])%list
                     (Some (serveNotFound r ctx reqPath wr)))
            else
              runDeferred r ctx reqPath0 wr []
                (after (getParams ps) (Some (serveNotFound r ctx reqPath wr)))
          else
            runDeferred r ctx reqPath0 wr []
              (after (getParams ps) (Some (serveNotFound r ctx reqPath wr)))
      end
  | None =>
      runDeferred r ctx reqPath0 wr [] (Some (serveNotFound r ctx reqPath wr))
  end.
Proof.
  destruct fuel; reflexivity.
Qed.

(** With a handler matched, [Serve] is one call of it followed by the
    deferred calls; no fuel is needed. *)
Lemma Serve_matched (fuel : nat) (r : router_t) (ctx : Ctx) (reqPath : string)
  (wr : W) (root : node) (h : Handle Ctx W Err V) (ps : option Params) (tsr : bool) :
  tree r = Some root ->
  getValue root (requestPath reqPath) = (Some h, ps, tsr) ->
  Serve fuel r ctx reqPath wr =
  let res := h ctx (requestPath reqPath) (paramsOf ps) wr in
  let call := (getParams ps
               ++ [CallHandle ctx (requestPath reqPath) (paramsOf ps) wr res])%list in
  match res with
  | Returns false None =>
      runDeferred r ctx reqPath wr (putParams ps)
        (after call (Some (serveNotFound r ctx (requestPath reqPath) wr)))
  | _ => runDeferred r ctx reqPath wr (putParams ps) (Some (res, call))
  end.
Proof.
  intros Htree Hget. rewrite Serve_unfold. cbv zeta. rewrite Htree, Hget.
  destruct (h ctx (requestPath reqPath) (paramsOf ps) wr) as [[|] [e|]|rcv];
    reflexivity.
Qed.

(** C2: when the handler that tree lookup matches for the request path
    returns a non-nil error [err] together with [handled], [Serve] returns
    exactly [(handled, err)]; besides borrowing and returning the
    parameter buffer it makes this one call: the not-found handler is not
    called and no trailing-slash or fixed-path redirection is tried. *)
Theorem Serve_propagates_handler_error (fuel : nat) (r : router_t) (ctx : Ctx)
  (reqPath : string) (wr : W) (root : node) (h : Handle Ctx W Err V)
  (ps : option Params) (tsr : bool) (handled : bool) (err : Err) :
  tree r = Some root ->
  getValue root (requestPath reqPath) = (Some h, ps, tsr) ->
  h ctx (requestPath reqPath) (paramsOf ps) wr = Returns handled (Some err) ->
  Serve fuel r ctx reqPath wr
  = Some (Returns handled (Some err),
          (getParams ps
           ++ [CallHandle ctx (requestPath reqPath) (paramsOf ps) wr
                 (Returns handled (Some err))]
           ++ putParams ps)%list).
Proof.
  intros Htree Hget Hres.
  rewrite (Serve_matched fuel r ctx reqPath wr root h ps tsr Htree Hget).
  cbv zeta. rewrite Hres.
  destruct handled; rewrite runDeferred_returns, <- app_assoc; reflexivity.
Qed.

(** C3: when the handler that tree lookup matches returns [(false, nil)],
    [Serve] tries no redirection and goes on to the not-found fallback:
    without a not-found handler it returns [(false, nil)]; with one, it
    calls it with the request path and no parameters and returns what it
    returns. *)
Theorem Serve_falls_through_to_not_found (fuel : nat) (r : router_t) (ctx : Ctx)
  (reqPath : string) (wr : W) (root : node) (h : Handle Ctx W Err V)
  (ps : option Params) (tsr : bool) :
  tree r = Some root ->
  getValue root (requestPath reqPath) = (Some h, ps, tsr) ->
  h ctx (requestPath reqPath) (paramsOf ps) wr = Returns false None ->
  (NotFound (conf r) = None ->
   Serve fuel r ctx reqPath wr
   = Some (Returns false None,
           (getParams ps
            ++ [CallHandle ctx (requestPath reqPath) (paramsOf ps) wr
                  (Returns false None)]
            ++ putParams ps)%list))
  /\ (forall (nf : Handle Ctx W Err V) (handled : bool) (err : option Err),
         NotFound (conf r) = Some nf ->
         nf ctx (requestPath reqPath) [] wr = Returns handled err ->
         Serve fuel r ctx reqPath wr
         = Some (Returns handled err,
                 (getParams ps
                  ++ [CallHandle ctx (requestPath reqPath) (paramsOf ps) wr
                        (Returns false None);
                      CallNotFound ctx (requestPath reqPath) [] wr
                        (Returns handled err)]
                  ++ putParams ps)%list)).
Proof.
  intros Htree Hget Hres.
  rewrite (Serve_matched fuel r ctx reqPath wr root h ps tsr Htree Hget).
  cbv zeta. rewrite Hres. unfold serveNotFound, after. split.
  - intros ->. rewrite runDeferred_returns.
    now rewrite app_nil_r, <- app_assoc.
  - intros nf handled err -> Hnf. rewrite Hnf, runDeferred_returns.
    now rewrite <- !app_assoc.
Qed.

(** *** Re-entry *)

Ltac serve_cases H :=
  rewrite Serve_unfold in H; cbv zeta in H;
  repeat match type of H with
         | context [match tree ?r with _ => _ end] =>
             destruct (tree r) as [?root|] eqn:?Htree
         | context [getValue ?root ?p] =>
             destruct (getValue root p) as [[[?h|] ?ps] ?tsr] eqn:?Hget
         | context [findCaseInsensitivePath ?root ?p ?b] =>
             destruct (findCaseInsensitivePath root p b) as [?fixedPath [|]] eqn:?Hfix
         | context [if ?b then _ else _] => destruct b eqn:?Hcond
         | context [match ?h ?c ?p ?ps ?w with _ => _ end] =>
             destruct (h c p ps w) as [?found ?herr|?rcv] eqn:?Hres
         end.

(** With a panic handler configured, [Serve] is never left by a panic. *)
Lemma Serve_trapped_returns (fuel : nat) (r : router_t) (ctx : Ctx)
  (reqPath : string) (wr : W) (ph : PanicHandlerFunc Ctx W V)
  (o : outcome Err V) (t : trace) :
  PanicHandler (conf r) = Some ph ->
  Serve fuel r ctx reqPath wr = Some (o, t) ->
  exists handled err, o = Returns handled err.
Proof.
  intros Hph H. serve_cases H;
    exact (runDeferred_never_panics _ _ _ _ _ _ ph _ _ Hph H).
Qed.

(** The frame that re-enters [Serve] adds nothing on its way out: the
    nested call has run its own deferred calls. *)
Lemma runDeferred_reentered (fuel : nat) (r : router_t) (ctx : Ctx)
  (reqPath reqPath' : string) (wr : W) (pre : trace) :
  runDeferred r ctx reqPath wr [] (after pre (Serve fuel r ctx reqPath' wr))
  = after pre (Serve fuel r ctx reqPath' wr).
Proof.
  destruct (Serve fuel r ctx reqPath' wr) as [[o t]|] eqn:Hin; [|reflexivity].
  cbn [after].
  destruct (PanicHandler (conf r)) as [ph|] eqn:Hph.
  - destruct (Serve_trapped_returns _ _ _ _ _ ph _ _ Hph Hin) as (b & e & ->).
    now rewrite runDeferred_returns, app_nil_r.
  - now rewrite (runDeferred_untrapped _ _ _ _ _ _ _ Hph), app_nil_r.
Qed.

Lemma dropLast_trailing_slash (s : string) :
  hasTrailingSlash s = true -> dropLast s ++ "/" = s.
Proof.
  induction s as [|c s IH]; simpl; intros Hs.
  - discriminate.
  - destruct s as [|c' s'].
    + apply Ascii.eqb_eq in Hs. now subst.
    + simpl in IH |- *. now rewrite (IH Hs).
Qed.

(** C4: with [RedirectTrailingSlash] set and a request path other than
    ["/"] and [""], when tree lookup finds no handler and reports
    [tsr = true], [Serve] returns what the re-entered [Serve] returns on
    the path with its slash toggled: the trailing slash removed when the
    path is longer than one byte and ends in a slash, a slash appended
    otherwise. *)
Theorem Serve_redirects_trailing_slash (fuel : nat) (r : router_t) (ctx : Ctx)
  (reqPath : string) (wr : W) (root : node) (ps : option Params) :
  RedirectTrailingSlash (conf r) = true ->
  reqPath <> "/" ->
  reqPath <> "" ->
  tree r = Some root ->
  getValue root reqPath = (None, ps, true) ->
  Serve (S fuel) r ctx reqPath wr
  = after (getParams ps ++ [RedirectTSR (toggleSlash reqPath)])%list
      (Serve fuel r ctx (toggleSlash reqPath) wr)
  /\ ((1 < String.length reqPath)%nat /\ hasTrailingSlash reqPath = true ->
      toggleSlash reqPath ++ "/" = reqPath)
  /\ (~ ((1 < String.length reqPath)%nat /\ hasTrailingSlash reqPath = true) ->
      toggleSlash reqPath = reqPath ++ "/").
Proof.
  intros Hrts Hroot Hempty Htree Hget.
  assert (Hreq : requestPath reqPath = reqPath).
  { unfold requestPath. now rewrite (proj2 (String.eqb_neq reqPath "") Hempty). }
  split; [|split].
  - rewrite Serve_unfold. cbv zeta. rewrite Hreq, Htree, Hget, Hrts.
    rewrite (proj2 (String.eqb_neq reqPath "/") Hroot).
    rewrite (proj2 (String.eqb_neq reqPath "") Hempty).
    cbn [negb andb]. apply runDeferred_reentered.
  - intros [Hlen Hts]. unfold toggleSlash.
    rewrite (proj2 (Nat.ltb_lt _ _) Hlen), Hts. cbn [andb].
    now apply dropLast_trailing_slash.
  - intros Hnot. unfold toggleSlash.
    destruct (1 <? String.length reqPath)%nat eqn:Hlen;
      destruct (hasTrailingSlash reqPath) eqn:Hts; cbn [andb]; try reflexivity.
    exfalso. apply Hnot. split; [now apply Nat.ltb_lt | reflexivity].
Qed.

(** *** Panics *)

Lemma quiet_getParams (ps : option Params) :
  quiet (getParams (Ctx:=Ctx) (W:=W) (Err:=Err) (V:=V) ps).
Proof.
  destruct ps; repeat constructor.
Qed.

Lemma quiet_putParams (ps : option Params) :
  quiet (putParams (Ctx:=Ctx) (W:=W) (Err:=Err) (V:=V) ps).
Proof.
  destruct ps; repeat constructor.
Qed.

Lemma quiet_unrecovered (o : outcome Err V) (t : trace) :
  quiet t -> unrecovered o t.
Proof.
  apply Forall_impl. intros ev [Htrap Hp]. split; [exact Htrap|].
  intros rcv Hrcv. congruence.
Qed.

Lemma unrecovered_app (o : outcome Err V) (a b : trace) :
  unrecovered o a -> unrecovered o b -> unrecovered o (a ++ b)%list.
Proof.
  intros Ha Hb. apply Forall_app. now split.
Qed.

Lemma unrecovered_traps (o : outcome Err V) (t : trace) :
  unrecovered o t -> traps t = 0%nat.
Proof.
  unfold traps. induction 1 as [|ev t [Htrap _] _ IH]; cbn.
  - reflexivity.
  - now rewrite Htrap.
Qed.

Lemma unrecovered_CallHandle (ctx : Ctx) (reqPath : string) (p : Params) (wr : W)
  (res : outcome Err V) :
  unrecovered res [CallHandle ctx reqPath p wr res].
Proof.
  repeat constructor. cbn. destruct res; congruence.
Qed.

Lemma unrecovered_serveNotFound (r : router_t) (ctx : Ctx) (reqPath : string)
  (wr : W) (pre : trace) :
  quiet pre ->
  unrecovered (fst (serveNotFound r ctx reqPath wr))
    (pre ++ snd (serveNotFound r ctx reqPath wr))%list.
Proof.
  intros Hpre. apply unrecovered_app; [now apply quiet_unrecovered|].
  unfold serveNotFound. destruct (NotFound (conf r)) as [nf|]; cbn.
  - repeat constructor. cbn. destruct (nf ctx reqPath [] wr); congruence.
  - constructor.
Qed.

Lemma raised_serveNotFound (r : router_t) (ctx : Ctx) (reqPath : string)
  (wr : W) (rcv : option V) :
  fst (serveNotFound r ctx reqPath wr) = Panics rcv ->
  exists ev, In ev (snd (serveNotFound r ctx reqPath wr)) /\ panicOf ev = Some rcv.
Proof.
  unfold serveNotFound. destruct (NotFound (conf r)) as [nf|]; cbn.
  - intros Hnf. eexists. split; [now left|]. cbn. now rewrite Hnf.
  - discriminate.
Qed.

(** What one frame of [Serve] does: either it runs to its deferred calls
    on its own, or it returns what the re-entered [Serve] returns. *)
Lemma Serve_frame (fuel : nat) (r : router_t) (ctx : Ctx) (reqPath : string) (wr : W) :
  (exists (ps : option Params) (o0 : outcome Err V) (t0 : trace),
      Serve fuel r ctx reqPath wr
      = runDeferred r ctx reqPath wr (putParams ps) (Some (o0, t0))
      /\ unrecovered o0 t0
      /\ (forall rcv, o0 = Panics rcv -> exists ev, In ev t0 /\ panicOf ev = Some rcv))
  \/ (exists (pre : trace) (reqPath' : string),
         Serve fuel r ctx reqPath wr
         = after pre match fuel with
                     | O => None
                     | S fuel' => Serve fuel' r ctx reqPath' wr
                     end
         /\ quiet pre).
Proof.
  assert (Hre : forall pre p,
             runDeferred r ctx reqPath wr []
               (after pre match fuel with
                          | O => None
                          | S fuel' => Serve fuel' r ctx p wr
                          end)
             = after pre match fuel with
                         | O => None
                         | S fuel' => Serve fuel' r ctx p wr
                         end).
  { intros pre p. destruct fuel; [reflexivity | apply runDeferred_reentered]. }
  assert (Hnf : forall pre,
             quiet pre ->
             exists (ps : option Params) o0 t0,
               runDeferred r ctx reqPath wr []
                 (after pre (Some (serveNotFound r ctx (requestPath reqPath) wr)))
               = runDeferred r ctx reqPath wr (putParams ps) (Some (o0, t0))
               /\ unrecovered o0 t0
               /\ (forall rcv, o0 = Panics rcv ->
                   exists ev, In ev t0 /\ panicOf ev = Some rcv)).
  { intros pre Hpre. exists None. eexists. eexists. split; [|split].
    - unfold after.
      rewrite (surjective_pairing (serveNotFound r ctx (requestPath reqPath) wr)).
      reflexivity.
    - now apply unrecovered_serveNotFound.
    - intros rcv Hrcv.
      destruct (raised_serveNotFound r ctx (requestPath reqPath) wr rcv Hrcv)
        as (ev & Hin & Hp).
      exists ev. split; [apply in_or_app; now right | exact Hp]. }
  rewrite Serve_unfold. cbv zeta.
  destruct (tree r) as [root|].
  2:{ left. exists None. eexists. eexists. split; [|split].
      - rewrite (surjective_pairing (serveNotFound r ctx (requestPath reqPath) wr)).
        reflexivity.
      - apply (unrecovered_serveNotFound r ctx (requestPath reqPath) wr []).
        constructor.
      - apply raised_serveNotFound. }
  destruct (getValue root (requestPath reqPath)) as [[[h|] ps] tsr].
  - left. exists ps.
    destruct (h ctx (requestPath reqPath) (paramsOf ps) wr) as [found herr|rcv] eqn:Hres.
    + destruct (found || notNil herr).
      * eexists. eexists. split; [reflexivity|split].
        -- apply unrecovered_app;
             [apply quiet_unrecovered, quiet_getParams | apply unrecovered_CallHandle].
        -- discriminate.
      * eexists. eexists. split; [|split].
        -- unfold after.
           rewrite (surjective_pairing (serveNotFound r ctx (requestPath reqPath) wr)).
           reflexivity.
        -- apply unrecovered_serveNotFound. apply Forall_app. split.
           ++ apply quiet_getParams.
           ++ repeat constructor.
        -- intros rcv Hrcv.
           destruct (raised_serveNotFound r ctx (requestPath reqPath) wr rcv Hrcv)
             as (ev & Hin & Hp).
           exists ev. split; [apply in_or_app; now right | exact Hp].
    + eexists. eexists. split; [reflexivity|split].
      * apply unrecovered_app;
          [apply quiet_unrecovered, quiet_getParams | apply unrecovered_CallHandle].
      * intros rcv' [= <-]. eexists. split.
        -- apply in_or_app. right. now left.
        -- reflexivity.
  - destruct (negb (requestPath reqPath =? "/") && negb (requestPath reqPath =? "")).
    2:{ left. apply Hnf, quiet_getParams. }
    destruct (tsr && RedirectTrailingSlash (conf r)).
    { right. eexists. eexists. split; [apply Hre|].
      apply Forall_app. split; [apply quiet_getParams | repeat constructor]. }
    destruct (RedirectFixedPath (conf r)).
    2:{ left. apply Hnf, quiet_getParams. }
    destruct (findCaseInsensitivePath root (CleanPath (requestPath reqPath))
                (RedirectTrailingSlash (conf r))) as [fixedPath [|]].
    + right. eexists. eexists. split; [apply Hre|].
      apply Forall_app. split; [apply quiet_getParams | repeat constructor].
    + left. apply Hnf. apply Forall_app.
      split; [apply quiet_getParams | repeat constructor].
Qed.

(** Without a panic handler nothing is recovered: the panic handler is
    never called, and a panic of any handler called on the way is the
    outcome of [Serve]. *)
Lemma Serve_untrapped (fuel : nat) (r : router_t) (ctx : Ctx) (wr : W) :
  PanicHandler (conf r) = None ->
  forall (reqPath : string) (o : outcome Err V) (t : trace),
    Serve fuel r ctx reqPath wr = Some (o, t) -> unrecovered o t.
Proof.
  intros Hph. induction fuel as [|fuel IH]; intros reqPath o t H.
  - destruct (Serve_frame 0 r ctx reqPath wr)
      as [(ps & o0 & t0 & Heq & Hun & _)|(pre & p & Heq & Hpre)]; rewrite Heq in H.
    + rewrite (runDeferred_untrapped _ _ _ _ _ _ _ Hph) in H.
      injection H as <- <-.
      apply unrecovered_app; [exact Hun | apply quiet_unrecovered, quiet_putParams].
    + discriminate H.
  - destruct (Serve_frame (S fuel) r ctx reqPath wr)
      as [(ps & o0 & t0 & Heq & Hun & _)|(pre & p & Heq & Hpre)]; rewrite Heq in H.
    + rewrite (runDeferred_untrapped _ _ _ _ _ _ _ Hph) in H.
      injection H as <- <-.
      apply unrecovered_app; [exact Hun | apply quiet_unrecovered, quiet_putParams].
    + destruct (Serve fuel r ctx p wr) as [[oi ti]|] eqn:Hin; [|discriminate H].
      cbn in H. injection H as <- <-.
      apply unrecovered_app; [now apply quiet_unrecovered | now apply (IH p)].
Qed.

Lemma unrecovered_no_trap (o : outcome Err V) (t : trace) (c : Ctx) (p : string)
  (w : W) (v : V) (res : trapOutcome V) :
  unrecovered o t -> ~ In (CallPanicHandler c p w v res) t.
Proof.
  intros Hun Hin.
  destruct (proj1 (Forall_forall _ _) Hun _ Hin) as [Htrap _]. discriminate Htrap.
Qed.

Lemma unrecovered_panic (o : outcome Err V) (t : trace) (ev : event Ctx W Err V)
  (rcv : option V) :
  unrecovered o t -> In ev t -> panicOf ev = Some rcv -> o = Panics rcv.
Proof.
  intros Hun Hin. now apply (proj1 (Forall_forall _ _) Hun _ Hin).
Qed.

(** With a panic handler nothing leaves [Serve] as a panic: the handler is
    called at most once, on the value a handler panicked with, and a call
    in which a handler panicked returns [(false, nil)]. *)
Lemma Serve_trapped (fuel : nat) (r : router_t) (ctx : Ctx) (wr : W)
  (ph : PanicHandlerFunc Ctx W V) :
  PanicHandler (conf r) = Some ph ->
  forall (reqPath : string) (o : outcome Err V) (t : trace),
    Serve fuel r ctx reqPath wr = Some (o, t) ->
    (traps t <= 1)%nat
    /\ (forall ev rcv, In ev t -> panicOf ev = Some rcv -> o = Returns false None)
    /\ (forall c p w v res,
           In (CallPanicHandler c p w v res) t ->
           c = ctx /\ w = wr /\ res = ph c p w v
           /\ exists ev, In ev t /\ panicOf ev = Some (Some v)).
Proof.
  intros Hph.
  assert (Hdirect : forall reqPath ps o0 t0 o t,
             unrecovered o0 t0 ->
             (forall rcv, o0 = Panics rcv ->
                          exists ev, In ev t0 /\ panicOf ev = Some rcv) ->
             runDeferred r ctx reqPath wr (putParams ps) (Some (o0, t0)) = Some (o, t) ->
             (traps t <= 1)%nat
             /\ (forall ev rcv, In ev t -> panicOf ev = Some rcv -> o = Returns false None)
             /\ (forall c p w v res,
                    In (CallPanicHandler c p w v res) t ->
                    c = ctx /\ w = wr /\ res = ph c p w v
                    /\ exists ev, In ev t /\ panicOf ev = Some (Some v))).
  { intros reqPath ps o0 t0 o t Hun Hraised H.
    pose proof (quiet_unrecovered o0 _ (quiet_putParams ps)) as Hput.
    destruct o0 as [handled err|rcv0].
    - rewrite runDeferred_returns in H. injection H as <- <-.
      pose proof (unrecovered_app _ _ _ Hun Hput) as Hall.
      split; [|split].
      + rewrite (unrecovered_traps _ _ Hall). lia.
      + intros ev rcv Hin Hp.
        discriminate (unrecovered_panic _ _ _ _ Hall Hin Hp).
      + intros c p w v res Hin.
        destruct (unrecovered_no_trap _ _ _ _ _ _ _ Hall Hin).
    - rewrite (runDeferred_trapped _ _ _ _ _ _ _ ph Hph) in H.
      injection H as <- <-.
      split; [|split].
      + rewrite !traps_app, (unrecovered_traps _ _ Hun), (unrecovered_traps _ _ Hput).
        destruct rcv0; cbn; lia.
      + reflexivity.
      + intros c p w v res Hin.
        apply in_app_or in Hin as [Hin|Hin];
          [destruct (unrecovered_no_trap _ _ _ _ _ _ _ Hun Hin)|].
        apply in_app_or in Hin as [Hin|Hin];
          [destruct (unrecovered_no_trap _ _ _ _ _ _ _ Hput Hin)|].
        destruct rcv0 as [v0|]; [|destruct Hin].
        destruct Hin as [[= <- <- <- <- <-]|[]].
        repeat split.
        destruct (Hraised (Some v0) eq_refl) as (ev & Hev & Hp).
        exists ev. split; [apply in_or_app; now left | exact Hp]. }
  induction fuel as [|fuel IH]; intros reqPath o t H.
  - destruct (Serve_frame 0 r ctx reqPath wr)
      as [(ps & o0 & t0 & Heq & Hun & Hr)|(pre & p & Heq & Hpre)]; rewrite Heq in H.
    + exact (Hdirect _ _ _ _ _ _ Hun Hr H).
    + discriminate H.
  - destruct (Serve_frame (S fuel) r ctx reqPath wr)
      as [(ps & o0 & t0 & Heq & Hun & Hr)|(pre & p & Heq & Hpre)]; rewrite Heq in H.
    + exact (Hdirect _ _ _ _ _ _ Hun Hr H).
    + destruct (Serve fuel r ctx p wr) as [[oi ti]|] eqn:Hin; [|discriminate H].
      cbn in H. injection H as <- <-.
      destruct (IH p oi ti Hin) as (IHt & IHp & IHc).
      pose proof (quiet_unrecovered oi _ Hpre) as Hq.
      split; [|split].
      * rewrite traps_app, (unrecovered_traps _ _ Hq). exact IHt.
      * intros ev rcv Hev Hp. apply in_app_or in Hev as [Hev|Hev].
        -- destruct (proj1 (Forall_forall _ _) Hpre _ Hev) as [_ Hnone].
           congruence.
        -- exact (IHp ev rcv Hev Hp).
      * intros c p' w v res Hev. apply in_app_or in Hev as [Hev|Hev].
        -- destruct (unrecovered_no_trap _ _ _ _ _ _ _ Hq Hev).
        -- destruct (IHc c p' w v res Hev) as (-> & -> & -> & ev & Hev' & Hp).
           repeat split. exists ev. split; [apply in_or_app; now right | exact Hp].
Qed.

(** C5: with a panic handler configured, a panic of the route handler
    does not leave [Serve] and is not turned into an error: [Serve]
    returns [(false, nil)].  The panic handler is called at most once in
    a call of [Serve], with the context, the request path, the writer and
    the recovered value, and whatever it does itself, a panic included,
    changes nothing in what [Serve] returns. *)
Theorem Serve_recovers_handler_panic (fuel : nat) (r : router_t) (ctx : Ctx)
  (reqPath : string) (wr : W) (ph : PanicHandlerFunc Ctx W V) :
  PanicHandler (conf r) = Some ph ->
  (forall (root : node) (h : Handle Ctx W Err V) (ps : option Params) (tsr : bool)
          (rcv : option V),
      tree r = Some root ->
      getValue root (requestPath reqPath) = (Some h, ps, tsr) ->
      h ctx (requestPath reqPath) (paramsOf ps) wr = Panics rcv ->
      Serve fuel r ctx reqPath wr
      = Some (Returns false None,
              (getParams ps
               ++ [CallHandle ctx (requestPath reqPath) (paramsOf ps) wr (Panics rcv)]
               ++ putParams ps
               ++ match rcv with
                  | Some v => [CallPanicHandler ctx reqPath wr v (ph ctx reqPath wr v)]
                  | None => []
                  end)%list))
  /\ (forall (o : outcome Err V) (t : trace),
         Serve fuel r ctx reqPath wr = Some (o, t) ->
         (exists handled err, o = Returns handled err)
         /\ (traps t <= 1)%nat
         /\ (forall ev rcv, In ev t -> panicOf ev = Some rcv -> o = Returns false None)
         /\ (forall c p w v res,
                In (CallPanicHandler c p w v res) t ->
                c = ctx /\ w = wr /\ res = ph c p w v
                /\ exists ev, In ev t /\ panicOf ev = Some (Some v))).
Proof.
  intros Hph. split.
  - intros root h ps tsr rcv Htree Hget Hres.
    rewrite (Serve_matched fuel r ctx reqPath wr root h ps tsr Htree Hget).
    cbv zeta. rewrite Hres, (runDeferred_trapped _ _ _ _ _ _ _ ph Hph).
    now rewrite <- !app_assoc.
  - intros o t H. split.
    + exact (Serve_trapped_returns _ _ _ _ _ ph _ _ Hph H).
    + exact (Serve_trapped fuel r ctx wr ph Hph reqPath o t H).
Qed.

(** C10: without a panic handler [Serve] recovers nothing: a panic of the
    route handler, or of the not-found handler, is the outcome of [Serve]
    with the value it was raised with, and the panic handler is not
    called. *)
Theorem Serve_propagates_panic (fuel : nat) (r : router_t) (ctx : Ctx)
  (reqPath : string) (wr : W) :
  PanicHandler (conf r) = None ->
  (forall (root : node) (h : Handle Ctx W Err V) (ps : option Params) (tsr : bool)
          (rcv : option V),
      tree r = Some root ->
      getValue root (requestPath reqPath) = (Some h, ps, tsr) ->
      h ctx (requestPath reqPath) (paramsOf ps) wr = Panics rcv ->
      Serve fuel r ctx reqPath wr
      = Some (Panics rcv,
              (getParams ps
               ++ [CallHandle ctx (requestPath reqPath) (paramsOf ps) wr (Panics rcv)]
               ++ putParams ps)%list))
  /\ (forall (root : node) (h nf : Handle Ctx W Err V) (ps : option Params)
             (tsr : bool) (rcv : option V),
         tree r = Some root ->
         getValue root (requestPath reqPath) = (Some h, ps, tsr) ->
         h ctx (requestPath reqPath) (paramsOf ps) wr = Returns false None ->
         NotFound (conf r) = Some nf ->
         nf ctx (requestPath reqPath) [] wr = Panics rcv ->
         Serve fuel r ctx reqPath wr
         = Some (Panics rcv,
                 (getParams ps
                  ++ [CallHandle ctx (requestPath reqPath) (paramsOf ps) wr
                        (Returns false None);
                      CallNotFound ctx (requestPath reqPath) [] wr (Panics rcv)]
                  ++ putParams ps)%list))
  /\ (forall (nf : Handle Ctx W Err V) (rcv : option V),
         tree r = None ->
         NotFound (conf r) = Some nf ->
         nf ctx (requestPath reqPath) [] wr = Panics rcv ->
         Serve fuel r ctx reqPath wr
         = Some (Panics rcv,
                 [CallNotFound ctx (requestPath reqPath) [] wr (Panics rcv)]))
  /\ (forall (o : outcome Err V) (t : trace),
         Serve fuel r ctx reqPath wr = Some (o, t) ->
         traps t = 0%nat
         /\ (forall ev rcv, In ev t -> panicOf ev = Some rcv -> o = Panics rcv)).
Proof.
  intros Hph. split; [|split; [|split]].
  - intros root h ps tsr rcv Htree Hget Hres.
    rewrite (Serve_matched fuel r ctx reqPath wr root h ps tsr Htree Hget).
    cbv zeta. rewrite Hres, (runDeferred_untrapped _ _ _ _ _ _ _ Hph).
    now rewrite <- app_assoc.
  - intros root h nf ps tsr rcv Htree Hget Hres Hnf Hpanic.
    rewrite (Serve_matched fuel r ctx reqPath wr root h ps tsr Htree Hget).
    cbv zeta. rewrite Hres. unfold serveNotFound, after. rewrite Hnf, Hpanic.
    rewrite (runDeferred_untrapped _ _ _ _ _ _ _ Hph).
    now rewrite <- !app_assoc.
  - intros nf rcv Htree Hnf Hpanic.
    rewrite Serve_unfold. cbv zeta. rewrite Htree. unfold serveNotFound.
    rewrite Hnf, Hpanic, (runDeferred_untrapped _ _ _ _ _ _ _ Hph).
    reflexivity.
  - intros o t H.
    pose proof (Serve_untrapped fuel r ctx wr Hph reqPath o t H) as Hun.
    split; [exact (unrecovered_traps _ _ Hun)|].
    intros ev rcv Hin Hp. exact (unrecovered_panic _ _ _ _ Hun Hin Hp).
Qed.

(** *** The parameter pool *)

Lemma poolBalanced_matched (ps : option Params) (mid tail : trace) :
  gets mid = 0%nat -> puts mid = 0%nat ->
  gets tail = 0%nat -> puts tail = 0%nat ->
  poolBalanced (getParams ps ++ mid ++ putParams ps ++ tail)%list.
Proof.
  intros Hgm Hpm Hgt Hpt. unfold poolBalanced.
  rewrite !gets_app, !puts_app, Hgm, Hpm, Hgt, Hpt.
  destruct ps; cbn; lia.
Qed.

(** C1, as the code has it: [LookupPath] borrows at most one buffer; it
    returns the buffer to the pool when no handler is found, and returns
    nothing to the pool when a handler is found, the borrowed buffer being
    the [Params] handed to the caller.  A call of [Serve] whose tree lookup
    finds a handler borrows at most one buffer and returns every buffer it
    borrowed before it returns, whether the handler returns, falls through
    to the not-found handler or panics. *)
Theorem pool_buffers_borrowed_and_returned :
  (forall (r : router_t) (path : string),
      (gets (snd (LookupPath r path)) <= 1)%nat
      /\ (fst (fst (fst (LookupPath r path))) = None ->
          puts (snd (LookupPath r path)) = gets (snd (LookupPath r path)))
      /\ (forall h, fst (fst (fst (LookupPath r path))) = Some h ->
                    puts (snd (LookupPath r path)) = 0%nat))
  /\ (forall (fuel : nat) (r : router_t) (ctx : Ctx) (reqPath : string) (wr : W)
             (root : node) (h : Handle Ctx W Err V) (ps : option Params) (tsr : bool),
         tree r = Some root ->
         getValue root (requestPath reqPath) = (Some h, ps, tsr) ->
         exists (o : outcome Err V) (t : trace),
           Serve fuel r ctx reqPath wr = Some (o, t) /\ poolBalanced t).
Proof.
  split.
  - intros r path. unfold LookupPath.
    destruct (tree r) as [root|];
      [|cbn; repeat split; try lia; try discriminate; reflexivity].
    destruct (getValue root path) as [[[h|] [p|]] tsr]; cbn;
      repeat split; try lia; try discriminate; reflexivity.
  - intros fuel r ctx reqPath wr root h ps tsr Htree Hget.
    rewrite (Serve_matched fuel r ctx reqPath wr root h ps tsr Htree Hget).
    cbv zeta. unfold runDeferred, after, serveNotFound, recoverPanic.
    destruct (h ctx (requestPath reqPath) (paramsOf ps) wr) as [[|] [e|]|[v|]];
      destruct (PanicHandler (conf r)) as [ph|];
      try (destruct (NotFound (conf r)) as [nf|];
           [destruct (nf ctx (requestPath reqPath) [] wr) as [b e'|[v'|]]|]).
    all: eexists; eexists; (split; [reflexivity|]).
    all: rewrite <- ?app_assoc.
    all: try (apply poolBalanced_matched; reflexivity).
    all: match goal with
         | |- poolBalanced (getParams ?ps ++ ?mid ++ putParams ?ps)%list =>
             rewrite <- (app_nil_r (putParams ps));
             apply poolBalanced_matched; reflexivity
         | |- poolBalanced (getParams ?ps ++ ?a ++ ?b ++ putParams ?ps)%list =>
             rewrite <- (app_nil_r (putParams ps)), (app_assoc a b);
             apply poolBalanced_matched; reflexivity
         | |- poolBalanced (getParams ?ps ++ ?a ++ ?b ++ putParams ?ps ++ ?c)%list =>
             rewrite (app_assoc a b);
             apply poolBalanced_matched; reflexivity
         | _ => idtac
         end.
Qed.

(** *** Registration *)

(** C7: [AddHandler] with a nil handler returns without a panic and
    leaves the router as it was: the tree, [maxParams] and the pool's
    [New] are unchanged, and so is every later [LookupPath] and [Serve]. *)
Theorem AddHandler_nil_handle (r : router_t) (path : string) :
  exists r' : router_t,
    AddHandler r path None = Ok r'
    /\ r' = r
    /\ tree r' = tree r
    /\ maxParams r' = maxParams r
    /\ paramsPoolNew r' = paramsPoolNew r
    /\ conf r' = conf r
    /\ (forall p, LookupPath r' p = LookupPath r p)
    /\ (forall fuel ctx p wr, Serve fuel r' ctx p wr = Serve fuel r ctx p wr).
Proof.
  exists r. repeat split.
Qed.

(** C8, as the code has it: [AddHandler] with the empty path and a
    non-nil handler is [AddHandler] with the path ["/"]: the handler is
    handed to [addRoute] under ["/"], on the tree of the router or on a
    new node when the router has none, and the router holds the tree that
    [addRoute] leaves. *)
Theorem AddHandler_empty_path (r : router_t) (h : Handle Ctx W Err V) :
  AddHandler r "" (Some h) = AddHandler r "/" (Some h)
  /\ match AddHandler r "" (Some h) with
     | Ok r' =>
         exists root',
           addRoute match tree r with
                    | Some root => root
                    | None => newNode
                    end "/" h = Ok root'
           /\ tree r' = Some root'
           /\ conf r' = conf r
     | Panic e =>
         addRoute match tree r with
                  | Some root => root
                  | None => newNode
                  end "/" h = Panic e
     end.
Proof.
  split; [reflexivity|].
  unfold AddHandler. cbn [registeredPath].
  destruct (addRoute _ "/" h) as [root'|e]; [|reflexivity].
  exists root'. repeat split.
Qed.

End RouterFacts.

(* ================================================================== *)
(** ** More on the router *)

Section RouterMore.

Context {Ctx W Err V : Type}.
Context {T : Tree (Handle Ctx W Err V)}.

Local Notation "'router_t'" := (@Router Ctx W Err V T).
Local Notation "'trace'" := (list (event Ctx W Err V)).

(** *** What one call of [Serve] does, path by path *)

(** X1: on a router without a tree, as [New] and [NewWithConfig] return
    it, [LookupPath] finds nothing and recommends no redirect, and [Serve]
    goes to the not-found tail at once, for every path and whatever the
    redirect options are: it returns [(false, nil)] without a not-found
    handler and what the not-found handler returns otherwise; the
    not-found handler is called with the request path, ["/"] standing for
    the empty path. *)
Theorem Serve_without_routes (fuel : nat) (r : router_t) (ctx : Ctx)
  (reqPath : string) (wr : W) :
  tree r = None ->
  LookupPath r reqPath = ((None, [], false), [])
  /\ (NotFound (conf r) = None ->
      Serve fuel r ctx reqPath wr = Some (Returns false None, []))
  /\ (forall (nf : Handle Ctx W Err V) (handled : bool) (err : option Err),
         NotFound (conf r) = Some nf ->
         nf ctx (requestPath reqPath) [] wr = Returns handled err ->
         Serve fuel r ctx reqPath wr
         = Some (Returns handled err,
                 [CallNotFound ctx (requestPath reqPath) [] wr
                    (Returns handled err)])).
Proof.
  intros Htree. split; [|split].
  - unfold LookupPath. now rewrite Htree.
  - intros Hnf. rewrite Serve_unfold. cbv zeta. rewrite Htree.
    unfold serveNotFound. rewrite Hnf. now rewrite runDeferred_returns.
  - intros nf handled err Hnf Hres. rewrite Serve_unfold. cbv zeta.
    rewrite Htree. unfold serveNotFound. rewrite Hnf, Hres.
    now rewrite runDeferred_returns.
Qed.

(** X2: when the handler that tree lookup matches returns
    [handled = true], with or without an error, [Serve] returns its
    result as it is and calls nothing else: the trace is the buffer
    borrowed, the call and the buffer returned. *)
Theorem Serve_handled (fuel : nat) (r : router_t) (ctx : Ctx)
  (reqPath : string) (wr : W) (root : node) (h : Handle Ctx W Err V)
  (ps : option Params) (tsr : bool) (err : option Err) :
  tree r = Some root ->
  getValue root (requestPath reqPath) = (Some h, ps, tsr) ->
  h ctx (requestPath reqPath) (paramsOf ps) wr = Returns true err ->
  Serve fuel r ctx reqPath wr
  = Some (Returns true err,
          (getParams ps
           ++ [CallHandle ctx (requestPath reqPath) (paramsOf ps) wr
                 (Returns true err)]
           ++ putParams ps)%list).
Proof.
  intros Htree Hget Hres.
  rewrite (Serve_matched fuel r ctx reqPath wr root h ps tsr Htree Hget).
  cbv zeta. rewrite Hres, runDeferred_returns. now rewrite <- app_assoc.
Qed.

(** X3: [Serve] calls the handler that [LookupPath] reports for the
    request path, with the parameters that [LookupPath] reports: the
    trace of [Serve] starts with the pool events of [LookupPath], goes on
    with that call, and holds no other call of a route handler. *)
Theorem Serve_calls_what_LookupPath_finds (fuel : nat) (r : router_t) (ctx : Ctx)
  (reqPath : string) (wr : W) (h : Handle Ctx W Err V) (params : Params)
  (tsr : bool) :
  fst (LookupPath r (requestPath reqPath)) = (Some h, params, tsr) ->
  exists (o : outcome Err V) (rest : trace),
    Serve fuel r ctx reqPath wr
    = Some (o, (snd (LookupPath r (requestPath reqPath))
                ++ CallHandle ctx (requestPath reqPath) params wr
                     (h ctx (requestPath reqPath) params wr)
                   :: rest)%list)
    /\ handles rest = 0%nat.
Proof.
  unfold LookupPath.
  destruct (tree r) as [root|] eqn:Htree; [|discriminate].
  destruct (getValue root (requestPath reqPath)) as [[[h'|] ps] tsr'] eqn:Hget;
    [|discriminate].
  intros Hfound.
  assert (Hh : h' = h /\ paramsOf ps = params
               /\ snd (match ps with
                       | Some p => (Some h', p, tsr', getParams ps)
                       | None => (Some h', [], tsr', getParams (Ctx:=Ctx) (W:=W) (Err:=Err) (V:=V) ps)
                       end) = getParams ps).
  { destruct ps; cbn in Hfound |- *; injection Hfound as -> -> _; auto. }
  destruct Hh as (-> & <- & ->).
  rewrite (Serve_matched fuel r ctx reqPath wr root h ps tsr' Htree Hget).
  cbv zeta. unfold runDeferred, after, serveNotFound, recoverPanic.
  destruct (h ctx (requestPath reqPath) (paramsOf ps) wr) as [[|] [e|]|[v|]];
    destruct (PanicHandler (conf r)) as [ph|];
    try (destruct (NotFound (conf r)) as [nf|];
         [destruct (nf ctx (requestPath reqPath) [] wr) as [b e'|[v'|]]|]).
  all: eexists; eexists; split;
    [rewrite <- ?app_assoc; cbn [app]; reflexivity|].
  all: unfold handles; rewrite ?filter_app; destruct ps; reflexivity.
Qed.

(** X4: the root path is never redirected.  When tree lookup misses on
    ["/"] (which the empty request path stands for), [Serve] goes to the
    not-found tail even with both redirect options set and [tsr]
    reported: no re-entry and no case-insensitive lookup. *)
Theorem Serve_root_path_not_redirected (fuel : nat) (r : router_t) (ctx : Ctx)
  (reqPath : string) (wr : W) (root : node) (ps : option Params) (tsr : bool) :
  reqPath = "" \/ reqPath = "/" ->
  tree r = Some root ->
  getValue root "/" = (None, ps, tsr) ->
  (NotFound (conf r) = None ->
   Serve fuel r ctx reqPath wr = Some (Returns false None, getParams ps))
  /\ (forall (nf : Handle Ctx W Err V) (handled : bool) (err : option Err),
         NotFound (conf r) = Some nf ->
         nf ctx "/" [] wr = Returns handled err ->
         Serve fuel r ctx reqPath wr
         = Some (Returns handled err,
                 (getParams ps
                  ++ [CallNotFound ctx "/" [] wr (Returns handled err)])%list)).
Proof.
  intros Hroot Htree Hget.
  assert (Hreq : requestPath reqPath = "/") by (destruct Hroot; subst; reflexivity).
  rewrite Serve_unfold. cbv zeta. rewrite Hreq, Htree, Hget.
  cbn [String.eqb Ascii.eqb Bool.eqb negb andb].
  unfold serveNotFound, after. split.
  - intros ->. now rewrite runDeferred_returns, !app_nil_r.
  - intros nf handled err -> ->. now rewrite runDeferred_returns, app_nil_r.
Qed.

Lemma runDeferred_outcome (r : router_t) (ctx : Ctx) (reqPath reqPath' : string)
  (wr : W) (put : trace) (m : option (outcome Err V * trace)) :
  option_map fst (runDeferred r ctx reqPath wr put m)
  = option_map fst (runDeferred r ctx reqPath' wr put m)
  /\ (PanicHandler (conf r) = None ->
      runDeferred r ctx reqPath wr put m = runDeferred r ctx reqPath' wr put m).
Proof.
  unfold runDeferred, recoverPanic.
  destruct m as [[[b e|rcv] t]|]; destruct (PanicHandler (conf r)); cbn; auto.
  split; [reflexivity | discriminate].
Qed.

(** X5: the empty request path is served as ["/"]: [Serve] on [""] and on
    ["/"] have the same outcome, and the same events when no panic handler
    is configured (a panic handler is told the request path as [Serve]
    received it). *)
Theorem Serve_empty_path_is_root (fuel : nat) (r : router_t) (ctx : Ctx) (wr : W) :
  option_map fst (Serve fuel r ctx "" wr) = option_map fst (Serve fuel r ctx "/" wr)
  /\ (PanicHandler (conf r) = None ->
      Serve fuel r ctx "" wr = Serve fuel r ctx "/" wr).
Proof.
  rewrite !Serve_unfold. cbv zeta.
  change (requestPath "") with "/". change (requestPath "/") with "/".
  destruct (tree r) as [root|]; [|apply runDeferred_outcome].
  destruct (getValue root "/") as [[[h|] ps] tsr].
  - destruct (h ctx "/" (paramsOf ps) wr) as [found herr|rcv];
      [destruct (found || notNil herr)|]; apply runDeferred_outcome.
  - cbn [String.eqb Ascii.eqb Bool.eqb negb andb]. apply runDeferred_outcome.
Qed.

(** X6: with [RedirectFixedPath] set and a request path other than ["/"]
    and [""], when tree lookup misses, no trailing-slash redirect applies
    ([tsr] is false or [RedirectTrailingSlash] is not set) and the
    case-insensitive lookup of the cleaned path finds a path, [Serve]
    returns what the re-entered [Serve] returns on the path found. *)
Theorem Serve_redirects_fixed_path (fuel : nat) (r : router_t) (ctx : Ctx)
  (reqPath : string) (wr : W) (root : node) (ps : option Params) (tsr : bool)
  (fixedPath : string) :
  RedirectFixedPath (conf r) = true ->
  tsr && RedirectTrailingSlash (conf r) = false ->
  reqPath <> "/" ->
  reqPath <> "" ->
  tree r = Some root ->
  getValue root reqPath = (None, ps, tsr) ->
  findCaseInsensitivePath root (CleanPath reqPath) (RedirectTrailingSlash (conf r))
  = (fixedPath, true) ->
  Serve (S fuel) r ctx reqPath wr
  = after (getParams ps
           ++ [FixedPathLookup (CleanPath reqPath); RedirectFixed fixedPath])%list
      (Serve fuel r ctx fixedPath wr).
Proof.
  intros Hrfp Htsr Hroot Hempty Htree Hget Hfix.
  assert (Hreq : requestPath reqPath = reqPath).
  { unfold requestPath. now rewrite (proj2 (String.eqb_neq reqPath "") Hempty). }
  rewrite Serve_unfold. cbv zeta. rewrite Hreq, Htree, Hget, Htsr, Hrfp, Hfix.
  rewrite (proj2 (String.eqb_neq reqPath "/") Hroot).
  rewrite (proj2 (String.eqb_neq reqPath "") Hempty).
  cbn [negb andb]. apply runDeferred_reentered.
Qed.

(** X7: a miss that no redirect applies to ends in the not-found tail.
    When tree lookup misses, no trailing-slash redirect applies, and
    [RedirectFixedPath] is not set or the case-insensitive lookup finds
    nothing, [Serve] returns [(false, nil)] without a not-found handler
    and otherwise what the not-found handler returns; the not-found
    handler is called with the request path as it came, not with the
    cleaned path. *)
Theorem Serve_miss_not_found (fuel : nat) (r : router_t) (ctx : Ctx)
  (reqPath : string) (wr : W) (root : node) (ps : option Params) (tsr : bool) :
  tsr && RedirectTrailingSlash (conf r) = false ->
  reqPath <> "/" ->
  reqPath <> "" ->
  tree r = Some root ->
  getValue root reqPath = (None, ps, tsr) ->
  RedirectFixedPath (conf r) = false
  \/ snd (findCaseInsensitivePath root (CleanPath reqPath)
            (RedirectTrailingSlash (conf r))) = false ->
  let looked : trace :=
    if RedirectFixedPath (conf r) then [FixedPathLookup (CleanPath reqPath)] else [] in
  (NotFound (conf r) = None ->
   Serve fuel r ctx reqPath wr
   = Some (Returns false None, (getParams ps ++ looked)%list))
  /\ (forall (nf : Handle Ctx W Err V) (handled : bool) (err : option Err),
         NotFound (conf r) = Some nf ->
         nf ctx reqPath [] wr = Returns handled err ->
         Serve fuel r ctx reqPath wr
         = Some (Returns handled err,
                 (getParams ps ++ looked
                  ++ [CallNotFound ctx reqPath [] wr (Returns handled err)])%list)).
Proof.
  intros Htsr Hroot Hempty Htree Hget Hfix looked.
  assert (Hreq : requestPath reqPath = reqPath).
  { unfold requestPath. now rewrite (proj2 (String.eqb_neq reqPath "") Hempty). }
  rewrite Serve_unfold. cbv zeta. rewrite Hreq, Htree, Hget, Htsr.
  rewrite (proj2 (String.eqb_neq reqPath "/") Hroot).
  rewrite (proj2 (String.eqb_neq reqPath "") Hempty).
  cbn [negb andb]. subst looked. unfold serveNotFound, after.
  destruct (RedirectFixedPath (conf r)).
  - destruct Hfix as [Hfix|Hfix]; [discriminate|].
    destruct (findCaseInsensitivePath root (CleanPath reqPath)
                (RedirectTrailingSlash (conf r))) as [fixedPath found].
    cbn in Hfix. subst found. split.
    + intros ->. now rewrite runDeferred_returns, !app_nil_r.
    + intros nf handled err -> ->.
      now rewrite runDeferred_returns, app_nil_r, <- app_assoc.
  - split.
    + intros ->. now rewrite runDeferred_returns, !app_nil_r.
    + intros nf handled err -> ->.
      now rewrite runDeferred_returns, !app_nil_r.
Qed.

(** X8: with both redirect options off [Serve] never re-enters itself:
    its result needs no re-entry budget, and its trace holds no redirect
    and no case-insensitive lookup. *)
Theorem Serve_redirects_off (fuel : nat) (r : router_t) (ctx : Ctx)
  (reqPath : string) (wr : W) :
  RedirectTrailingSlash (conf r) = false ->
  RedirectFixedPath (conf r) = false ->
  Serve fuel r ctx reqPath wr = Serve 0 r ctx reqPath wr
  /\ exists (o : outcome Err V) (t : trace),
       Serve 0 r ctx reqPath wr = Some (o, t)
       /\ redirects t = 0%nat /\ fixedPathLookups t = 0%nat.
Proof.
  intros Hrts Hrfp. split.
  - rewrite !Serve_unfold. cbv zeta. rewrite Hrts, Hrfp.
    destruct (tree r) as [root|]; [|reflexivity].
    destruct (getValue root (requestPath reqPath)) as [[[h|] ps] tsr];
      [reflexivity|].
    rewrite andb_false_r.
    destruct (negb (requestPath reqPath =? "/") && negb (requestPath reqPath =? ""));
      reflexivity.
  - rewrite Serve_unfold. cbv zeta. rewrite Hrts, Hrfp.
    unfold runDeferred, after, serveNotFound, recoverPanic.
    destruct (tree r) as [root|].
    2:{ destruct (NotFound (conf r)) as [nf|];
          [destruct (nf ctx (requestPath reqPath) [] wr) as [b e|[v|]]|];
          destruct (PanicHandler (conf r)) as [ph|];
          eexists; eexists; (split; [reflexivity|split; reflexivity]). }
    destruct (getValue root (requestPath reqPath)) as [[[h|] ps] tsr].
    + destruct (h ctx (requestPath reqPath) (paramsOf ps) wr) as [[|] [e|]|[v|]];
        cbn [orb notNil];
        try (destruct (NotFound (conf r)) as [nf|];
             [destruct (nf ctx (requestPath reqPath) [] wr) as [b e'|[v'|]]|]);
        destruct (PanicHandler (conf r)) as [ph|];
        eexists; eexists; (split; [reflexivity|]);
        unfold redirects, fixedPathLookups; rewrite ?filter_app;
        destruct ps; split; reflexivity.
    + rewrite andb_false_r.
      destruct (negb (requestPath reqPath =? "/") && negb (requestPath reqPath =? ""));
        (destruct (NotFound (conf r)) as [nf|];
         [destruct (nf ctx (requestPath reqPath) [] wr) as [b e'|[v'|]]|]);
        destruct (PanicHandler (conf r)) as [ph|];
        eexists; eexists; (split; [reflexivity|]);
        unfold redirects, fixedPathLookups; rewrite ?filter_app;
        destruct ps; split; reflexivity.
Qed.

(** *** What holds of every call of [Serve] *)

Lemma requestPath_not_empty (reqPath : string) : requestPath reqPath <> "".
Proof.
  unfold requestPath. destruct (String.eqb_spec reqPath ""); [discriminate | assumption].
Qed.

(** One frame of [Serve], with its events spelled out: a matched handler
    that decides the request; a matched handler that passes it on to the
    not-found tail; a miss that ends in the not-found tail; a miss that
    re-enters [Serve]. *)
Lemma Serve_frame_shape (fuel : nat) (r : router_t) (ctx : Ctx) (reqPath : string)
  (wr : W) :
  (exists (ps : option Params) (res : outcome Err V),
      res <> Returns false None
      /\ Serve fuel r ctx reqPath wr
         = runDeferred r ctx reqPath wr (putParams ps)
             (Some (res,
                    (getParams ps
                     ++ [CallHandle ctx (requestPath reqPath) (paramsOf ps) wr res])%list)))
  \/ (exists (ps : option Params),
         Serve fuel r ctx reqPath wr
         = runDeferred r ctx reqPath wr (putParams ps)
             (Some (fst (serveNotFound r ctx (requestPath reqPath) wr),
                    (getParams ps
                     ++ [CallHandle ctx (requestPath reqPath) (paramsOf ps) wr
                           (Returns false None)]
                     ++ snd (serveNotFound r ctx (requestPath reqPath) wr))%list)))
  \/ (exists (ps : option Params) (looked : trace),
         (looked = [] \/ exists c, looked = [FixedPathLookup c])
         /\ Serve fuel r ctx reqPath wr
            = runDeferred r ctx reqPath wr []
                (Some (fst (serveNotFound r ctx (requestPath reqPath) wr),
                       (getParams ps ++ looked
                        ++ snd (serveNotFound r ctx (requestPath reqPath) wr))%list)))
  \/ (exists (ps : option Params) (looked : trace) (reqPath' : string),
         (looked = [RedirectTSR reqPath']
          \/ exists c, looked = [FixedPathLookup c; RedirectFixed reqPath'])
         /\ Serve fuel r ctx reqPath wr
            = after (getParams ps ++ looked)%list
                match fuel with
                | O => None
                | S fuel' => Serve fuel' r ctx reqPath' wr
                end).
Proof.
  assert (Hre : forall pre p,
             runDeferred r ctx reqPath wr []
               (after pre match fuel with
                          | O => None
                          | S fuel' => Serve fuel' r ctx p wr
                          end)
             = after pre match fuel with
                         | O => None
                         | S fuel' => Serve fuel' r ctx p wr
                         end).
  { intros pre p. destruct fuel; [reflexivity | apply runDeferred_reentered]. }
  assert (Hnf : forall pre,
             after pre (Some (serveNotFound r ctx (requestPath reqPath) wr))
             = Some (fst (serveNotFound r ctx (requestPath reqPath) wr),
                     (pre ++ snd (serveNotFound r ctx (requestPath reqPath) wr))%list)).
  { intros pre. unfold after.
    now destruct (serveNotFound r ctx (requestPath reqPath) wr). }
  rewrite Serve_unfold. cbv zeta.
  destruct (tree r) as [root|].
  2:{ right. right. left. exists None, []. split; [now left|].
      cbn [getParams app].
      now destruct (serveNotFound r ctx (requestPath reqPath) wr). }
  destruct (getValue root (requestPath reqPath)) as [[[h|] ps] tsr].
  - destruct (h ctx (requestPath reqPath) (paramsOf ps) wr) as [found herr|rcv] eqn:Hres.
    + destruct (found || notNil herr) eqn:Hdec.
      * left. exists ps, (Returns found herr). split; [|reflexivity].
        intros [= -> ->]. discriminate Hdec.
      * right. left. exists ps.
        apply orb_false_elim in Hdec as [-> Herr].
        destruct herr; [discriminate Herr|].
        now rewrite Hnf, <- app_assoc.
    + left. exists ps, (Panics rcv). split; [discriminate | reflexivity].
  - destruct (negb (requestPath reqPath =? "/") && negb (requestPath reqPath =? "")).
    2:{ right. right. left. exists ps, []. split; [now left|]. now rewrite Hnf. }
    destruct (tsr && RedirectTrailingSlash (conf r)).
    { right. right. right. eexists ps, _, _. split; [left; reflexivity|]. apply Hre. }
    destruct (RedirectFixedPath (conf r)).
    2:{ right. right. left. exists ps, []. split; [now left|]. now rewrite Hnf. }
    destruct (findCaseInsensitivePath root (CleanPath (requestPath reqPath))
                (RedirectTrailingSlash (conf r))) as [fixedPath [|]].
    + right. right. right. eexists ps, _, _. split; [right; eexists; reflexivity|].
      apply Hre.
    + right. right. left. eexists ps, _. split; [right; eexists; reflexivity|].
      rewrite Hnf. now rewrite <- app_assoc.
Qed.

Lemma serveNotFound_cases (r : router_t) (ctx : Ctx) (reqPath : string) (wr : W) :
  serveNotFound r ctx reqPath wr = (Returns false None, [])
  \/ exists res,
       serveNotFound r ctx reqPath wr = (res, [CallNotFound ctx reqPath [] wr res]).
Proof.
  unfold serveNotFound. destruct (NotFound (conf r)) as [nf|]; [right|left]; eauto.
Qed.

Lemma runDeferred_cases (r : router_t) (ctx : Ctx) (reqPath : string) (wr : W)
  (put t0 t : trace) (o0 o : outcome Err V) :
  runDeferred r ctx reqPath wr put (Some (o0, t0)) = Some (o, t) ->
  (o = o0 /\ t = (t0 ++ put)%list)
  \/ (o = Returns false None
      /\ (exists rcv, o0 = Panics rcv)
      /\ (t = (t0 ++ put)%list
          \/ exists v res, t = (t0 ++ put ++ [CallPanicHandler ctx reqPath wr v res])%list)).
Proof.
  unfold runDeferred, recoverPanic.
  destruct (PanicHandler (conf r)) as [ph|].
  - destruct o0 as [b e|[v|]]; intros [= <- <-].
    + left. now rewrite app_nil_r.
    + right. repeat split; eauto.
    + right. repeat split; eauto. left. now rewrite app_nil_r.
  - intros [= <- <-]. now left.
Qed.

Ltac count_events :=
  unfold handles, notFounds, redirects, fixedPathLookups, gets, puts, traps;
  rewrite ?filter_app, ?length_app; cbn; try lia.

(** Every call of [Serve], re-entries included: the counts of its events,
    what it passes to the handlers, and where its result comes from. *)
Lemma Serve_facts (fuel : nat) (r : router_t) (ctx : Ctx) (wr : W) :
  forall (reqPath : string) (o : outcome Err V) (t : trace),
    Serve fuel r ctx reqPath wr = Some (o, t) ->
    (handles t <= 1)%nat
    /\ (notFounds t <= 1)%nat
    /\ (puts t <= handles t)%nat
    /\ (puts t <= gets t)%nat
    /\ (gets t <= redirects t + 1)%nat
    /\ (fixedPathLookups t <= redirects t + 1)%nat
    /\ Forall (forwarded ctx wr) t
    /\ (forall handled err,
           o = Returns handled err ->
           handled = true \/ err <> None ->
           exists p ps,
             In (CallHandle ctx p ps wr o) t \/ In (CallNotFound ctx p [] wr o) t).
Proof.
  induction fuel as [|fuel IH]; intros reqPath o t H.
  all: pose proof (requestPath_not_empty reqPath) as Hne.
  all: match type of H with
       | Serve ?f _ _ _ _ = _ =>
           destruct (Serve_frame_shape f r ctx reqPath wr)
             as [(ps & res & Hres & Heq)
                |[(ps & Heq)
                 |[(ps & looked & Hlooked & Heq)
                  |(ps & looked & p' & Hlooked & Heq)]]];
           rewrite Heq in H; clear Heq
       end.
  (* a frame that ends the request *)
  1-3, 5-7:
    apply runDeferred_cases in H;
    try (destruct (serveNotFound_cases r ctx (requestPath reqPath) wr)
           as [Hnf|(res' & Hnf)]; rewrite Hnf in H; cbn [fst snd] in H);
    try (destruct Hlooked as [->|(c & ->)]);
    destruct H as [(-> & ->)|(-> & (rcv & Hrcv) & [->|(v & tres & ->)])];
    try discriminate Hrcv; try subst res;
    destruct ps as [p0|];
    (repeat split;
     [count_events ..
     | cbn; repeat constructor; cbn; auto
     | intros handled err Ho Hd;
       try (injection Ho as <- <-; destruct Hd; congruence);
       match goal with
       | |- context [CallHandle _ _ ?q _ _ :: _] => exists (requestPath reqPath), q
       | _ => exists (requestPath reqPath), (@nil Param)
       end; cbn;
       solve [left; repeat (first [left; reflexivity | right])
             |right; repeat (first [left; reflexivity | right])] ]).
  (* a frame that re-enters *)
  - discriminate H.
  - destruct (Serve fuel r ctx p' wr) as [[oi ti]|] eqn:Hin; [|discriminate H].
    cbn [after] in H. injection H as <- <-.
    destruct (IH p' oi ti Hin) as (Hh & Hn & Hph & Hpg & Hgr & Hfr & Hfw & Hor).
    unfold handles, notFounds, redirects, fixedPathLookups, gets, puts in *.
    destruct Hlooked as [->|(c & ->)]; destruct ps as [p0|];
      (repeat split;
       [rewrite ?filter_app, ?length_app; cbn; lia ..
       | apply Forall_app; split; [cbn; repeat constructor | exact Hfw]
       | intros handled err Ho Hd;
         destruct (Hor handled err Ho Hd) as (p & ps' & [Hev|Hev]);
         exists p, ps'; [left|right]; apply in_or_app; now right ]).
Qed.

(** X9: however many times [Serve] re-enters itself, one request calls
    at most one route handler, at most once the not-found handler and at
    most once the panic handler. *)
Theorem Serve_calls_at_most_once (fuel : nat) (r : router_t) (ctx : Ctx)
  (reqPath : string) (wr : W) (o : outcome Err V) (t : trace) :
  Serve fuel r ctx reqPath wr = Some (o, t) ->
  (handles t <= 1)%nat /\ (notFounds t <= 1)%nat /\ (traps t <= 1)%nat.
Proof.
  intros H.
  destruct (Serve_facts fuel r ctx wr reqPath o t H) as (Hh & Hn & _).
  repeat split; [exact Hh | exact Hn |].
  destruct (PanicHandler (conf r)) as [ph|] eqn:Hph.
  - exact (proj1 (Serve_trapped fuel r ctx wr ph Hph reqPath o t H)).
  - rewrite (unrecovered_traps _ _ (Serve_untrapped fuel r ctx wr Hph reqPath o t H)).
    lia.
Qed.

(** X10: [Serve] never gives the pool a buffer it did not borrow: in one
    request it returns at most one buffer, only when a route handler was
    called, and never more buffers than it borrowed; it borrows at most
    one buffer for each tree lookup, the first and one for each
    re-entry. *)
Theorem Serve_pool_discipline (fuel : nat) (r : router_t) (ctx : Ctx)
  (reqPath : string) (wr : W) (o : outcome Err V) (t : trace) :
  Serve fuel r ctx reqPath wr = Some (o, t) ->
  (puts t <= gets t)%nat
  /\ (puts t <= 1)%nat
  /\ (handles t = 0%nat -> puts t = 0%nat)
  /\ (gets t <= redirects t + 1)%nat.
Proof.
  intros H.
  destruct (Serve_facts fuel r ctx wr reqPath o t H)
    as (Hh & _ & Hph & Hpg & Hgr & _).
  repeat split; try lia.
Qed.

(** X11: [Serve] fails or succeeds only through a handler: a result with
    a non-nil error, or with [handled = true], is the result that a route
    handler or the not-found handler returned in this request. *)
Theorem Serve_result_from_handler (fuel : nat) (r : router_t) (ctx : Ctx)
  (reqPath : string) (wr : W) (t : trace) (handled : bool) (err : option Err) :
  Serve fuel r ctx reqPath wr = Some (Returns handled err, t) ->
  handled = true \/ err <> None ->
  exists (p : string) (ps : Params),
    In (CallHandle ctx p ps wr (Returns handled err)) t
    \/ In (CallNotFound ctx p [] wr (Returns handled err)) t.
Proof.
  intros H Hd.
  destruct (Serve_facts fuel r ctx wr reqPath _ t H) as (_ & _ & _ & _ & _ & _ & _ & Hor).
  exact (Hor handled err eq_refl Hd).
Qed.

(** X12: [Serve] passes the context and the writer of the request on to
    every handler it calls, re-entries included; route handlers and the
    not-found handler are never called with the empty request path, and
    the not-found handler is always called with nil parameters. *)
Theorem Serve_forwards (fuel : nat) (r : router_t) (ctx : Ctx)
  (reqPath : string) (wr : W) (o : outcome Err V) (t : trace) :
  Serve fuel r ctx reqPath wr = Some (o, t) ->
  forall ev, In ev t -> forwarded ctx wr ev.
Proof.
  intros H.
  destruct (Serve_facts fuel r ctx wr reqPath o t H) as (_ & _ & _ & _ & _ & _ & Hfw & _).
  now apply Forall_forall.
Qed.

(** *** Registration, continued *)

(** X13: what a registration that does not panic leaves: the
    configuration as it was, the tree that [addRoute] built from the
    router's tree (a new node when there was none) for the path with its
    leading slash, [maxParams] raised to the parameter count of the path
    when that is larger and never lowered, and the pool's [New] set once
    [maxParams] is positive and never unset.  A registration panics
    exactly when [addRoute] does. *)
Theorem AddHandler_registers (r : router_t) (path : string) (h : Handle Ctx W Err V) :
  let root := match tree r with
              | Some root => root
              | None => newNode
              end in
  (forall r' : router_t,
      AddHandler r path (Some h) = Ok r' ->
      conf r' = conf r
      /\ (exists root', addRoute root (registeredPath path) h = Ok root'
                        /\ tree r' = Some root')
      /\ maxParams r' = Z.max (maxParams r) (uint16 (countParams (registeredPath path)))
      /\ (maxParams r <= maxParams r')%Z
      /\ paramsPoolNew r' = paramsPoolNew r || (0 <? maxParams r')%Z)
  /\ (forall e, AddHandler r path (Some h) = Panic e
                <-> addRoute root (registeredPath path) h = Panic e).
Proof.
  intros root. unfold AddHandler. fold root.
  destruct (addRoute root (registeredPath path) h) as [root'|e0].
  - split; [|split; discriminate].
    intros r' [= <-]. cbn [conf tree maxParams paramsPoolNew].
    rewrite Z.add_0_r.
    set (pc := uint16 (countParams (registeredPath path))).
    assert (Hmax : (if (pc >? maxParams r)%Z then pc else maxParams r)
                   = Z.max (maxParams r) pc).
    { rewrite Z.gtb_ltb. destruct (Z.ltb_spec (maxParams r) pc); lia. }
    rewrite Hmax. repeat split.
    + exists root'. now split.
    + lia.
    + rewrite Z.gtb_ltb. destruct (paramsPoolNew r);
        destruct (0 <? Z.max (maxParams r) pc)%Z; reflexivity.
  - split; [discriminate|]. intros e. split; intros [= ->]; reflexivity.
Qed.

(** X14: on every router that [NewWithConfig] and registrations that did
    not panic lead to, the configuration is the one given at the start,
    [maxParams] is a [uint16], the pool's [New] is set exactly when
    [maxParams] is positive, and a router without a tree has no
    parameters to make room for. *)
Theorem built_invariant (c : RouterConfig Ctx W Err V) (r : router_t) :
  built c r ->
  conf r = c
  /\ (0 <= maxParams r < 65536)%Z
  /\ paramsPoolNew r = (0 <? maxParams r)%Z
  /\ (tree r = None -> maxParams r = 0%Z).
Proof.
  induction 1 as [|r r' path [h|] Hb (Hc & Hrange & Hnew & Hnone) Hadd].
  - cbn. repeat split; lia.
  - unfold AddHandler in Hadd.
    destruct (addRoute _ (registeredPath path) h) as [root'|e]; [|discriminate Hadd].
    injection Hadd as <-. cbn [conf tree maxParams paramsPoolNew].
    rewrite Z.add_0_r, !Z.gtb_ltb.
    assert (Hpc : (0 <= uint16 (countParams (registeredPath path)) < 65536)%Z)
      by (apply Z.mod_pos_bound; lia).
    destruct (Z.ltb_spec (maxParams r) (uint16 (countParams (registeredPath path))));
      (repeat split; [exact Hc | lia | lia | | discriminate]);
      rewrite Hnew.
    + destruct (Z.ltb_spec 0 (maxParams r));
        destruct (Z.ltb_spec 0 (uint16 (countParams (registeredPath path))));
        try reflexivity; lia.
    + destruct (Z.ltb_spec 0 (maxParams r)); reflexivity.
  - injection Hadd as <-. repeat split; auto; lia.
Qed.

(** X15: [AddHandler] registers every path in its form with a leading
    slash: the path handed to [addRoute] always starts with a slash, a
    path that starts with one is registered as it is, and a path that
    does not is registered as the path with a slash put in front. *)
Theorem AddHandler_leading_slash (r : router_t) (path : string)
  (handle : option (Handle Ctx W Err V)) :
  AddHandler r path handle = AddHandler r (registeredPath path) handle
  /\ (exists rest, registeredPath path = String slash rest)
  /\ (forall rest, path = String slash rest -> registeredPath path = path)
  /\ ((forall rest, path <> String slash rest) ->
      registeredPath path = "/" ++ path).
Proof.
  assert (Hshape : (exists rest, path = String slash rest /\ registeredPath path = path)
                   \/ ((forall rest, path <> String slash rest)
                       /\ registeredPath path = "/" ++ path)).
  { destruct path as [|c rest].
    - right. split; [discriminate | reflexivity].
    - cbn [registeredPath]. destruct (Ascii.eqb_spec c slash) as [->|Hc].
      + left. now exists rest.
      + right. split; [|reflexivity]. intros rest' [= Heq _]. contradiction. }
  assert (Hidem : registeredPath (registeredPath path) = registeredPath path).
  { destruct Hshape as [(rest & -> & _)|(_ & ->)]; reflexivity. }
  repeat split.
  - destruct handle as [h|]; [|reflexivity].
    unfold AddHandler. now rewrite Hidem.
  - destruct Hshape as [(rest & Hp & ->)|(_ & ->)];
      [exists rest; exact Hp | exists path; reflexivity].
  - intros rest ->. reflexivity.
  - intros Hno. destruct Hshape as [(rest & Hp & _)|(_ & Heq)]; [|exact Heq].
    destruct (Hno rest Hp).
Qed.

End RouterMore.

(** ** Lookup by name, continued *)

(** X16: when the keys of [ps] are pairwise different, as the names of
    the placeholders of one pattern are, every [Param] of [ps] is found
    under its key: [ByName ps (Key p) = Value p]. *)
Theorem ByName_distinct_keys (ps : Params) (p : Param) :
  NoDup (map Key ps) -> In p ps -> ByName ps (Key p) = Value p.
Proof.
  induction ps as [|q ps IH]; intros Hnd Hin; [destruct Hin|].
  inversion Hnd as [|? ? Hq Hrest]; subst. cbn.
  destruct Hin as [->|Hin].
  - now rewrite String.eqb_refl.
  - destruct (String.eqb_spec (Key q) (Key p)) as [Heq|_].
    + exfalso. apply Hq. rewrite Heq. now apply in_map.
    + now apply IH.
Qed.

(** X17: [ByName] on two slices put end to end looks in the first slice
    and, only when the name is not a key there, in the second: a key of
    the first slice hides the same key further on. *)
Theorem ByName_app (ps qs : Params) (name : string) :
  ByName (ps ++ qs)%list name
  = if existsb (fun q => String.eqb (Key q) name) ps
    then ByName ps name
    else ByName qs name.
Proof.
  induction ps as [|q ps IH]; cbn; [reflexivity|].
  destruct (String.eqb (Key q) name); [reflexivity | exact IH].
Qed.

(* ================================================================== *)
(** ** The routers of router_test.go, served *)

Import RouteTable.

Lemma userRouter_registered (h : Example.handle) :
  AddHandler New "/user/:name" (Some h) = Ok (Example.userRouter DefaultConfig h).
Proof.
  reflexivity.
Qed.

Lemma pathRouter_registered :
  match AddHandler New "/path" (Some Example.served) with
  | Ok r1 =>
      match AddHandler r1 "/dir/" (Some Example.served) with
      | Ok r2 => AddHandler r2 "/" (Some Example.served)
      | Panic e => Panic e
      end
  | Panic e => Panic e
  end = Ok Example.pathRouter.
Proof.
  reflexivity.
Qed.

(** C1 as stated does not hold: [LookupPath] on [/user/gopher], with
    [/user/:name] registered, borrows a buffer and does not return it. *)
Lemma LookupPath_keeps_borrowed_buffer :
  ~ poolBalanced
      (snd (LookupPath (Example.userRouter DefaultConfig Example.served)
              "/user/gopher")).
Proof.
  intros [_ Hputs]. vm_compute in Hputs. discriminate Hputs.
Qed.

(** So does [Serve] on a miss: on [/user/gopher/] the tree lookup binds
    [name] before it fails, the buffer it took is not returned, and the
    re-entered [Serve] borrows a second one. *)
Lemma Serve_miss_keeps_borrowed_buffer :
  Serve 1 (Example.userRouter DefaultConfig Example.served) tt "/user/gopher/" tt
  = Some (Returns true None,
          [PoolGet; RedirectTSR "/user/gopher"; PoolGet;
           CallHandle tt "/user/gopher" [mkParam "name" "gopher"] tt
             (Returns true None);
           PoolPut])
  /\ ~ poolBalanced
        ([PoolGet; RedirectTSR "/user/gopher"; PoolGet;
          CallHandle tt "/user/gopher" [mkParam "name" "gopher"] tt
            (Returns true None);
          PoolPut] : list (event unit unit string string)).
Proof.
  split; [reflexivity|].
  intros [Hgets _]. vm_compute in Hgets. lia.
Qed.

Lemma pool_buffers_borrowed_and_returned_witness :
  exists o t,
    Serve 0 (Example.userRouter DefaultConfig Example.served) tt "/user/gopher" tt
    = Some (o, t)
    /\ poolBalanced t.
Proof.
  apply (proj2 pool_buffers_borrowed_and_returned 0
           (Example.userRouter DefaultConfig Example.served) tt "/user/gopher" tt
           [mkRoute [Static "user"; Named "name"] Example.served]
           Example.served (Some [mkParam "name" "gopher"]) false).
  - reflexivity.
  - reflexivity.
Defined.

Lemma Serve_propagates_handler_error_witness :
  Serve 0 (Example.userRouter DefaultConfig Example.failing) tt "/user/gopher" tt
  = Some (Returns false (Some "wrong wildcard values"),
          [PoolGet;
           CallHandle tt "/user/gopher" [mkParam "name" "gopher"] tt
             (Returns false (Some "wrong wildcard values"));
           PoolPut]).
Proof.
  apply (Serve_propagates_handler_error 0
           (Example.userRouter DefaultConfig Example.failing) tt "/user/gopher" tt
           [mkRoute [Static "user"; Named "name"] Example.failing]
           Example.failing (Some [mkParam "name" "gopher"]) false
           false "wrong wildcard values").
  - reflexivity.
  - reflexivity.
  - reflexivity.
Defined.

Lemma Serve_falls_through_to_not_found_witness :
  Serve 0 (Example.userRouter DefaultConfig Example.passing) tt "/user/gopher" tt
  = Some (Returns false None,
          [PoolGet;
           CallHandle tt "/user/gopher" [mkParam "name" "gopher"] tt
             (Returns false None);
           PoolPut])
  /\ Serve 0 (Example.userRouter
                (mkConfig true true (Some Example.notFound) None) Example.passing)
       tt "/user/gopher" tt
     = Some (Returns true None,
             [PoolGet;
              CallHandle tt "/user/gopher" [mkParam "name" "gopher"] tt
                (Returns false None);
              CallNotFound tt "/user/gopher" [] tt (Returns true None);
              PoolPut]).
Proof.
  split.
  - apply (proj1 (Serve_falls_through_to_not_found 0
                    (Example.userRouter DefaultConfig Example.passing)
                    tt "/user/gopher" tt
                    [mkRoute [Static "user"; Named "name"] Example.passing]
                    Example.passing (Some [mkParam "name" "gopher"]) false
                    eq_refl eq_refl eq_refl)).
    reflexivity.
  - apply (proj2 (Serve_falls_through_to_not_found 0
                    (Example.userRouter
                       (mkConfig true true (Some Example.notFound) None)
                       Example.passing)
                    tt "/user/gopher" tt
                    [mkRoute [Static "user"; Named "name"] Example.passing]
                    Example.passing (Some [mkParam "name" "gopher"]) false
                    eq_refl eq_refl eq_refl)
             Example.notFound true None).
    + reflexivity.
    + reflexivity.
Defined.

Lemma Serve_redirects_trailing_slash_witness :
  Serve 1 Example.pathRouter tt "/path/" tt
  = Some (Returns true None,
          [RedirectTSR "/path"; CallHandle tt "/path" [] tt (Returns true None)]).
Proof.
  apply (proj1 (Serve_redirects_trailing_slash 0 Example.pathRouter tt "/path/" tt
                  [mkRoute [Static "path"] Example.served;
                   mkRoute [Static "dir"; Static ""] Example.served;
                   mkRoute [Static ""] Example.served]
                  None eq_refl
                  ltac:(discriminate) ltac:(discriminate) eq_refl eq_refl)).
Defined.

Lemma Serve_recovers_handler_panic_witness :
  Serve 0 (Example.userRouter
             (mkConfig true true None (Some Example.trap)) Example.panicking)
    tt "/user/gopher" tt
  = Some (Returns false None,
          [PoolGet;
           CallHandle tt "/user/gopher" [mkParam "name" "gopher"] tt
             (Panics (Some "oops!"));
           PoolPut;
           CallPanicHandler tt "/user/gopher" tt "oops!"
             (TrapPanics (Some "oops!"))]).
Proof.
  apply (proj1 (Serve_recovers_handler_panic 0
                  (Example.userRouter
                     (mkConfig true true None (Some Example.trap))
                     Example.panicking)
                  tt "/user/gopher" tt Example.trap eq_refl)
           [mkRoute [Static "user"; Named "name"] Example.panicking]
           Example.panicking (Some [mkParam "name" "gopher"]) false
           (Some "oops!")).
  - reflexivity.
  - reflexivity.
  - reflexivity.
Defined.

Lemma Serve_propagates_panic_witness :
  Serve 0 (Example.userRouter DefaultConfig Example.panicking)
    tt "/user/gopher" tt
  = Some (Panics (Some "oops!"),
          [PoolGet;
           CallHandle tt "/user/gopher" [mkParam "name" "gopher"] tt
             (Panics (Some "oops!"));
           PoolPut])
  /\ Serve 0 (NewWithConfig
                (mkConfig true true (Some Example.notFoundPanics) None)
              : Example.router)
       tt "" tt
     = Some (Panics (Some "no route"),
             [CallNotFound tt "/" [] tt (Panics (Some "no route"))]).
Proof.
  split.
  - apply (proj1 (Serve_propagates_panic 0
                    (Example.userRouter DefaultConfig Example.panicking)
                    tt "/user/gopher" tt eq_refl)
             [mkRoute [Static "user"; Named "name"] Example.panicking]
             Example.panicking (Some [mkParam "name" "gopher"]) false
             (Some "oops!")).
    + reflexivity.
    + reflexivity.
    + reflexivity.
  - apply (proj1 (proj2 (proj2 (Serve_propagates_panic 0
                                  (NewWithConfig
                                     (mkConfig true true
                                        (Some Example.notFoundPanics) None)
                                   : Example.router)
                                  tt "" tt eq_refl)))
             Example.notFoundPanics (Some "no route")).
    + reflexivity.
    + reflexivity.
    + reflexivity.
Defined.

(** C8 as stated does not hold: on a new router, [AddHandler] with the
    empty path registers the handler under ["/"]. *)
Lemma empty_path_registers_root :
  AddHandler (New : Example.router) "" (Some Example.served) <> Ok New
  /\ exists r' : Example.router,
       AddHandler New "" (Some Example.served) = Ok r'
       /\ tree r' = Some [mkRoute [Static ""] Example.served]
       /\ fst (LookupPath r' "/") = (Some Example.served, [], false)
       /\ fst (LookupPath (New : Example.router) "/") = (None, [], false).
Proof.
  split.
  - intros H. discriminate H.
  - eexists. split; [reflexivity|]. repeat split.
Qed.

(* ================================================================== *)
(** ** More requests on the routers of router_test.go *)

Lemma Serve_without_routes_witness :
  LookupPath (New : Example.router) "/nope" = ((None, [], false), [])
  /\ Serve 0 (New : Example.router) tt "/nope" tt = Some (Returns false None, [])
  /\ Serve 0 (NewWithConfig (mkConfig true true (Some Example.notFound) None)
              : Example.router) tt "" tt
     = Some (Returns true None, [CallNotFound tt "/" [] tt (Returns true None)]).
Proof.
  split; [|split].
  - apply (proj1 (Serve_without_routes 0 (New : Example.router) tt "/nope" tt eq_refl)).
  - apply (proj1 (proj2 (Serve_without_routes 0 (New : Example.router)
                           tt "/nope" tt eq_refl))).
    reflexivity.
  - apply (proj2 (proj2 (Serve_without_routes 0
                           (NewWithConfig
                              (mkConfig true true (Some Example.notFound) None)
                            : Example.router)
                           tt "" tt eq_refl))
             Example.notFound true None).
    + reflexivity.
    + reflexivity.
Defined.

Lemma Serve_handled_witness :
  Serve 0 (Example.userRouter DefaultConfig Example.served) tt "/user/gopher" tt
  = Some (Returns true None,
          [PoolGet;
           CallHandle tt "/user/gopher" [mkParam "name" "gopher"] tt
             (Returns true None);
           PoolPut]).
Proof.
  apply (Serve_handled 0 (Example.userRouter DefaultConfig Example.served)
           tt "/user/gopher" tt
           [mkRoute [Static "user"; Named "name"] Example.served]
           Example.served (Some [mkParam "name" "gopher"]) false None).
  - reflexivity.
  - reflexivity.
  - reflexivity.
Defined.

Lemma Serve_calls_what_LookupPath_finds_witness :
  exists o rest,
    Serve 0 (Example.userRouter DefaultConfig Example.served) tt "/user/gopher" tt
    = Some (o, PoolGet
               :: CallHandle tt "/user/gopher" [mkParam "name" "gopher"] tt
                    (Returns true None)
               :: rest)
    /\ handles rest = 0%nat.
Proof.
  apply (Serve_calls_what_LookupPath_finds 0
           (Example.userRouter DefaultConfig Example.served) tt "/user/gopher" tt
           Example.served [mkParam "name" "gopher"] false).
  reflexivity.
Defined.

Lemma Serve_root_path_not_redirected_witness :
  Serve 0 (Example.userRouter DefaultConfig Example.served) tt "" tt
  = Some (Returns false None, []).
Proof.
  apply (proj1 (Serve_root_path_not_redirected 0
                  (Example.userRouter DefaultConfig Example.served) tt "" tt
                  [mkRoute [Static "user"; Named "name"] Example.served]
                  None false (or_introl eq_refl) eq_refl eq_refl)).
  reflexivity.
Defined.

Lemma Serve_empty_path_is_root_witness :
  Serve 0 Example.pathRouter tt "" tt = Serve 0 Example.pathRouter tt "/" tt.
Proof.
  apply (proj2 (Serve_empty_path_is_root 0 Example.pathRouter tt tt)).
  reflexivity.
Defined.

Lemma Serve_redirects_fixed_path_witness :
  Serve 1 Example.pathRouter tt "/PATH" tt
  = Some (Returns true None,
          [FixedPathLookup "/PATH"; RedirectFixed "/path";
           CallHandle tt "/path" [] tt (Returns true None)]).
Proof.
  apply (Serve_redirects_fixed_path 0 Example.pathRouter tt "/PATH" tt
           [mkRoute [Static "path"] Example.served;
            mkRoute [Static "dir"; Static ""] Example.served;
            mkRoute [Static ""] Example.served]
           None false "/path").
  - reflexivity.
  - reflexivity.
  - discriminate.
  - discriminate.
  - reflexivity.
  - reflexivity.
  - reflexivity.
Defined.

Lemma Serve_miss_not_found_witness :
  Serve 0 Example.pathRouter tt "/nope" tt
  = Some (Returns false None, [FixedPathLookup "/nope"]).
Proof.
  apply (proj1 (Serve_miss_not_found 0 Example.pathRouter tt "/nope" tt
                  [mkRoute [Static "path"] Example.served;
                   mkRoute [Static "dir"; Static ""] Example.served;
                   mkRoute [Static ""] Example.served]
                  None false eq_refl
                  ltac:(discriminate) ltac:(discriminate) eq_refl eq_refl
                  (or_intror eq_refl))).
  reflexivity.
Defined.

Lemma Serve_redirects_off_witness :
  Serve 3 (Example.userRouter (mkConfig false false None None) Example.served)
    tt "/user/gopher/" tt
  = Serve 0 (Example.userRouter (mkConfig false false None None) Example.served)
      tt "/user/gopher/" tt.
Proof.
  apply (proj1 (Serve_redirects_off 3
                  (Example.userRouter (mkConfig false false None None)
                     Example.served)
                  tt "/user/gopher/" tt eq_refl eq_refl)).
Defined.

Lemma Serve_calls_at_most_once_witness :
  (handles ([PoolGet; RedirectTSR "/user/gopher"; PoolGet;
             CallHandle tt "/user/gopher" [mkParam "name" "gopher"] tt
               (Returns true None);
             PoolPut] : list (event unit unit string string)) <= 1)%nat.
Proof.
  apply (Serve_calls_at_most_once 1
           (Example.userRouter DefaultConfig Example.served)
           tt "/user/gopher/" tt (Returns true None)).
  reflexivity.
Defined.

Lemma Serve_pool_discipline_witness :
  (puts ([PoolGet; RedirectTSR "/user/gopher"; PoolGet;
          CallHandle tt "/user/gopher" [mkParam "name" "gopher"] tt
            (Returns true None);
          PoolPut] : list (event unit unit string string)) <= 1)%nat.
Proof.
  apply (Serve_pool_discipline 1
           (Example.userRouter DefaultConfig Example.served)
           tt "/user/gopher/" tt (Returns true None)).
  reflexivity.
Defined.

Lemma Serve_result_from_handler_witness :
  exists p ps,
    In (CallHandle tt p ps tt (Returns false (Some "wrong wildcard values")))
      ([PoolGet;
        CallHandle tt "/user/gopher" [mkParam "name" "gopher"] tt
          (Returns false (Some "wrong wildcard values"));
        PoolPut] : list (event unit unit string string))
    \/ In (CallNotFound tt p [] tt (Returns false (Some "wrong wildcard values")))
         ([PoolGet;
           CallHandle tt "/user/gopher" [mkParam "name" "gopher"] tt
             (Returns false (Some "wrong wildcard values"));
           PoolPut] : list (event unit unit string string)).
Proof.
  apply (Serve_result_from_handler 0
           (Example.userRouter DefaultConfig Example.failing)
           tt "/user/gopher" tt).
  - reflexivity.
  - right. discriminate.
Defined.

Lemma Serve_forwards_witness :
  forwarded tt tt
    (CallHandle tt "/user/gopher" [mkParam "name" "gopher"] tt
       (Returns true None) : event unit unit string string).
Proof.
  apply (Serve_forwards 1 (Example.userRouter DefaultConfig Example.served)
           tt "/user/gopher/" tt (Returns true None)
           [PoolGet; RedirectTSR "/user/gopher"; PoolGet;
            CallHandle tt "/user/gopher" [mkParam "name" "gopher"] tt
              (Returns true None);
            PoolPut]).
  - reflexivity.
  - cbn. auto.
Defined.

Lemma AddHandler_registers_witness :
  maxParams (Example.userRouter DefaultConfig Example.served) = 1%Z
  /\ paramsPoolNew (Example.userRouter DefaultConfig Example.served) = true.
Proof.
  destruct (proj1 (AddHandler_registers (New : Example.router) "/user/:name"
                     Example.served)
              (Example.userRouter DefaultConfig Example.served) eq_refl)
    as (_ & _ & Hmax & _ & Hnew).
  split; [exact Hmax | exact Hnew].
Defined.

Lemma built_invariant_witness :
  paramsPoolNew (Example.userRouter DefaultConfig Example.served)
  = (0 <? maxParams (Example.userRouter DefaultConfig Example.served))%Z.
Proof.
  apply (built_invariant DefaultConfig
           (Example.userRouter DefaultConfig Example.served)).
  apply (built_add DefaultConfig New _ "/user/:name" (Some Example.served)).
  - apply built_new.
  - reflexivity.
Defined.

Lemma AddHandler_leading_slash_witness :
  registeredPath "user/:name" = "/user/:name"
  /\ registeredPath "/user/:name" = "/user/:name".
Proof.
  split.
  - apply (proj2 (proj2 (proj2 (AddHandler_leading_slash
                                  (New : Example.router) "user/:name" None)))).
    intros rest H. discriminate H.
  - apply (proj1 (proj2 (proj2 (AddHandler_leading_slash
                                  (New : Example.router) "/user/:name" None)))
             "user/:name").
    reflexivity.
Defined.

Lemma ByName_distinct_keys_witness :
  ByName Example.testParams "param3" = "value3".
Proof.
  apply (ByName_distinct_keys Example.testParams (mkParam "param3" "value3")).
  - cbn. repeat constructor; cbn; intuition discriminate.
  - cbn. auto.
Defined.
